(** * Catalog ingestion and chat transport of the e-commerce chat server

    A shallow embedding of [seed-database.ts] (schema, database setup,
    vector index recreation, synthetic data generation, summary
    compilation, seeding loop) and of the two chat routes of the HTTP
    server, followed by the properties of the specification that concern
    them.

    Outside services (MongoDB, the generative model, the embedding model,
    the output parser, the conversational agent) are not part of the
    program.  Every call to one of them is recorded in a trace, and whether
    it fails is decided by an arbitrary oracle that sees the whole history,
    so a theorem proved here holds for every pattern of failures. *)

From stdpp Require Import base gmap strings list.
From Stdlib Require Import ZArith Ascii DecimalString Lia.

Local Open Scope string_scope.
Local Open Scope Z_scope.
Local Open Scope list_scope.
Set Warnings "-notation-for-abbreviation".

(** ** Strings *)

(** The line feed inside a multi-line template literal. *)
Definition LF : string := String "010"%char EmptyString.

(** [drop_string n s] is [s.slice(n)]. *)
Fixpoint drop_string (n : nat) (s : string) : string :=
  match n, s with
  | O, _ => s
  | S n', String _ s' => drop_string n' s'
  | S _, EmptyString => EmptyString
  end.

(** [find_after p s] looks for the leftmost occurrence of [p] in [s] and
    returns what follows it. *)
Fixpoint find_after (p s : string) : option string :=
  if String.prefix p s then Some (drop_string (String.length p) s)
  else match s with
       | EmptyString => None
       | String _ s' => find_after p s'
       end.

(** [includes s p] is [s.includes(p)]. *)
Definition includes (s p : string) : bool :=
  match find_after p s with Some _ => true | None => false end.

(** [in_order ps s]: the strings [ps] occur in [s] one after the other,
    without overlap (each one is searched leftmost in what remains). *)
Fixpoint in_order (ps : list string) (s : string) : bool :=
  match ps with
  | [] => true
  | p :: ps' =>
      match find_after p s with
      | Some rest => in_order ps' rest
      | None => false
      end
  end.

(** The same as a proposition: [s] is cut into the pieces [ps], in this
    order, with arbitrary text before, between and after them. *)
Inductive InOrder : list string -> string -> Prop :=
| InOrder_nil s : InOrder [] s
| InOrder_cons p ps pre rest :
    InOrder ps rest -> InOrder (p :: ps) (pre +:+ p +:+ rest).

(** ** Numbers *)

(** A schema field declared [z.number()] is rendered inside a template
    literal by the number-to-string conversion of the language.  The
    summary compiler uses nothing else of a number, so the record types are
    generic in the number type and its conversion. *)
Class JsNumber (number : Type) := numberToString : number -> string.

(** Integers print as their decimal numeral, with a minus sign when
    negative. *)
#[export] Instance Z_JsNumber : JsNumber Z :=
  fun z => NilZero.string_of_int (Z.to_int z).

(** ** The item schema ([itemSchema]) *)

Record Address := {
  street : string;
  city : string;
  state : string;
  postal_code : string;
  country : string
}.

Record Prices (number : Type) := {
  full_price : number;
  sale_price : number
}.
Arguments full_price {number} _.
Arguments sale_price {number} _.

Record Review (number : Type) := {
  review_date : string;
  rating : number;
  comment : string
}.
Arguments review_date {number} _.
Arguments rating {number} _.
Arguments comment {number} _.

Record Item (number : Type) := {
  item_id : string;
  item_name : string;
  item_description : string;
  brand : string;
  manufacturer_address : Address;
  prices : Prices number;
  categories : list string;
  user_reviews : list (Review number);
  notes : string
}.
Arguments item_id {number} _.
Arguments item_name {number} _.
Arguments item_description {number} _.
Arguments brand {number} _.
Arguments manufacturer_address {number} _.
Arguments prices {number} _.
Arguments categories {number} _.
Arguments user_reviews {number} _.
Arguments notes {number} _.

(** ** Search indexes, documents and the calls to outside services *)

(** One entry of [definition.fields] of a search index. *)
Record VectorField := {
  field_type : string;
  path : string;
  numdimensions : Z;
  similarity : string
}.

(** The argument of [collection.createSearchIndex]. *)
Record SearchIndexDescription := {
  name : string;
  type : string;
  definition : list VectorField
}.

(** A thrown value. *)
Record Error := { message : string }.

Inductive Result (A : Type) :=
| Ok (a : A)
| Throw (e : Error).
Arguments Ok {A} a.
Arguments Throw {A} e.

(** What [console.log] and [console.error] have printed. *)
Inductive LogLine :=
| Log (text : string)
| LogError (text : string) (e : Error).

Section Platform.

Context {number vector : Type}.

(** The argument of [MongoDBAtlasVectorSearch.fromDocuments]. *)
Record Document := {
  pageContent : string;
  metadata : Item number
}.

(** What the vector store inserts for a document, under the keys
    [textKey] = "embedding_text" and [embeddingKey] = "embedding", next to
    the fields of the metadata. *)
Record StoredDocument := {
  embedding_text : string;
  embedding : vector;
  record : Item number
}.

(** The value [parser.parse] resolves to, as the code tells it apart. *)
Inductive Parsed :=
| ParsedArray (items : list (Item number))
| ParsedObject (item : Item number)
| ParsedFalsy.

(** The awaited calls that leave the process. *)
Inductive Call :=
| CConnect
| CPing
| CListCollections (filter_name : string)
| CCreateCollection (collection_name : string)
| CDropIndexes
| CCreateSearchIndex (idx : SearchIndexDescription)
| CDeleteMany
| CLlmInvoke (prompt : string)
| CFromDocuments (docs : list Document) (indexName textKey embeddingKey : string).

(** A call together with its outcome. *)
Record Event := {
  call : Call;
  succeeded : bool
}.

(** The database [inventory_database] as the program sees it, the calls
    made so far (oldest first) and the console. *)
Record World := {
  collections : gset string;
  indexes : list SearchIndexDescription;
  documents : list StoredDocument;
  trace : list Event;
  console : list LogLine
}.

(** What the program does not own.  [fault history c] says whether the
    call [c], made after [history], fails and with which error. *)
Class Services := {
  fault : list Event -> Call -> option Error;
  llm_content : string -> string;
  parser_parse : string -> Result Parsed;
  parser_getFormatInstructions : string;
  embed : string -> vector
}.

Context {JN : JsNumber number} {SV : Services}.

(** *** The monad of an [async] function: state and exceptions *)

Definition M (A : Type) : Type := World -> Result A * World.

Definition ret {A} (a : A) : M A := fun w => (Ok a, w).

Definition bind {A B} (m : M A) (k : A -> M B) : M B :=
  fun w =>
    match m w with
    | (Ok a, w') => k a w'
    | (Throw e, w') => (Throw e, w')
    end.

Definition throw {A} (e : Error) : M A := fun w => (Throw e, w).

(** Reading the world, without changing it. *)
Definition gets {A} (f : World -> A) : M A := fun w => (Ok (f w), w).

(** [try { body } catch (error) { handler }] *)
Definition try_catch {A} (body : M A) (handler : Error -> M A) : M A :=
  fun w =>
    match body w with
    | (Ok a, w') => (Ok a, w')
    | (Throw e, w') => handler e w'
    end.

(** [new Promise((resolve) => { ... resolve(v) })], whose executor runs at
    once and resolves before it returns. *)
Definition new_Promise {A} (executor : (A -> M A) -> M A) : M A :=
  executor ret.

Definition console_log (text : string) : M unit :=
  fun w => (Ok tt,
            {| collections := collections w; indexes := indexes w;
               documents := documents w; trace := trace w;
               console := console w ++ [Log text] |}).

Definition console_error (text : string) (e : Error) : M unit :=
  fun w => (Ok tt,
            {| collections := collections w; indexes := indexes w;
               documents := documents w; trace := trace w;
               console := console w ++ [LogError text e] |}).

End Platform.

Arguments Document : clear implicits.
Arguments StoredDocument : clear implicits.
Arguments Parsed : clear implicits.
Arguments Call : clear implicits.
Arguments Event : clear implicits.
Arguments World : clear implicits.
Arguments Services : clear implicits.
Arguments M : clear implicits.

Declare Scope async_scope.
Delimit Scope async_scope with async.
Notation "x <- c1 ;; c2" := (bind c1 (fun x => c2))
  (at level 100, c1 at next level, right associativity) : async_scope.
Notation "c1 ;; c2" := (bind c1 (fun _ => c2))
  (at level 100, right associativity) : async_scope.

Local Open Scope async_scope.

(** ** The seeding script ([seed-database.ts]) *)

Section Seed.

Context {number vector : Type} {JN : JsNumber number} {SV : Services number vector}.

Notation World := (World number vector).
Notation Call := (Call number).
Notation M := (M number vector).

Definition record_event (c : Call) (ok : bool) (w : World) : World :=
  {| collections := collections w; indexes := indexes w;
     documents := documents w;
     trace := trace w ++ [{| call := c; succeeded := ok |}];
     console := console w |}.

(** The text key and the embedding key of [fromDocuments] name the two
    fields that are added to the metadata ([{ ...record }], a copy of the
    record). *)
Definition stored (d : Document number) : StoredDocument number vector :=
  {| embedding_text := pageContent d;
     embedding := embed (pageContent d);
     record := metadata d |}.

(** Modelled from the spec: the corpus store (the MongoDB driver and the
    vector store library are not part of the repository).  A collection is
    created under its name, [dropIndexes] removes every index of the
    collection, [createSearchIndex] adds the described index, [deleteMany]
    with the empty filter removes every document, and [fromDocuments]
    embeds and inserts the given documents after those already there. *)
Definition store_effect (c : Call) (w : World) : World :=
  match c with
  | CCreateCollection n =>
      {| collections := {[ n ]} ∪ collections w; indexes := indexes w;
         documents := documents w; trace := trace w; console := console w |}
  | CDropIndexes =>
      {| collections := collections w; indexes := [];
         documents := documents w; trace := trace w; console := console w |}
  | CCreateSearchIndex idx =>
      {| collections := collections w; indexes := indexes w ++ [idx];
         documents := documents w; trace := trace w; console := console w |}
  | CDeleteMany =>
      {| collections := collections w; indexes := indexes w;
         documents := []; trace := trace w; console := console w |}
  | CFromDocuments docs _ _ _ =>
      {| collections := collections w; indexes := indexes w;
         documents := documents w ++ map stored docs;
         trace := trace w; console := console w |}
  | CConnect | CPing | CListCollections _ | CLlmInvoke _ => w
  end.

(** An awaited call to an outside service: it either rejects, leaving the
    store as it was, or takes effect. Both outcomes are recorded. *)
Definition external (c : Call) : M unit :=
  fun w =>
    match fault (trace w) c with
    | Some e => (Throw e, record_event c false w)
    | None => (Ok tt, record_event c true (store_effect c w))
    end.

Definition client_connect : M unit := external CConnect.

(** [client.db("admin").command({ping:1})] *)
Definition admin_ping : M unit := external CPing.

(** [db.listCollections({ name }).toArray()] *)
Definition db_listCollections (filter_name : string) : M (list string) :=
  external (CListCollections filter_name) ;;
  gets (fun w => if decide (filter_name ∈ collections w)
                 then [filter_name] else []).

Definition db_createCollection (n : string) : M unit :=
  external (CCreateCollection n).

Definition collection_dropIndexes : M unit := external CDropIndexes.

Definition collection_createSearchIndex (idx : SearchIndexDescription)
  : M unit := external (CCreateSearchIndex idx).

(** [collection.deleteMany({})] *)
Definition collection_deleteMany : M unit := external CDeleteMany.

(** [llm.invoke(prompt)], of which the program reads [content]. *)
Definition llm_invoke (prompt : string) : M string :=
  external (CLlmInvoke prompt) ;; ret (llm_content prompt).

(** [parser.parse(text)] runs inside the process: it resolves or rejects,
    and calls nothing outside. *)
Definition parse (text : string) : M (Parsed number) :=
  match parser_parse text with
  | Ok parsed => ret parsed
  | Throw e => throw e
  end.

Definition MongoDBAtlasVectorSearch_fromDocuments
    (docs : list (Document number)) (indexName textKey embeddingKey : string)
  : M unit :=
  external (CFromDocuments docs indexName textKey embeddingKey).

(** [Promise.all] of promises that are started one after the other. *)
Fixpoint Promise_all {A} (ps : list (M A)) : M (list A) :=
  match ps with
  | [] => ret []
  | p :: ps' => a <- p ;; rest <- Promise_all ps' ;; ret (a :: rest)
  end.

(** [for (const x of xs) { body }] *)
Fixpoint for_of {A} (xs : list A) (body : A -> M unit) : M unit :=
  match xs with
  | [] => ret tt
  | x :: xs' => body x ;; for_of xs' body
  end.

Definition setupDatabaseAndCollection : M unit :=
  console_log "Setting up database and collection..." ;;
  collections <- db_listCollections "items" ;;
  if Nat.eqb (length collections) 0 then
    db_createCollection "items" ;;
    console_log "Created 'items' collection in 'inventory_database' database"
  else
    console_log
      " 'items' collection already exists in 'inventory_database' database ".

Definition createVectorSearchIndex : M unit :=
  try_catch
    (collection_dropIndexes ;;
     let vectorSearchIdx :=
       {| name := "vector_index";
          type := "vectorSearch";
          definition :=
            [ {| field_type := "vector";
                 path := "embedding";
                 numdimensions := 768;
                 similarity := "cosine" |} ] |} in
     console_log "Creating vector search index" ;;
     collection_createSearchIndex vectorSearchIdx ;;
     console_log "successfully created vector search index")
    (fun error => console_error "Failed to create vector search index" error).

Definition generateSyntheticData : M (list (Item number)) :=
  let prompt :=
    "you are a helpful assistant that generates furniture store item data. generate 10 furniture store items. each record should"
    +:+ LF +:+
    "  include the following fields: item_id, item_name, item_description, brand, manufacturer_address, prices, categories, user_reviews, notes. ensure variety in the data and realistic values "
    +:+ LF +:+ "  " +:+ parser_getFormatInstructions in
  console_log "Generating synthetic data.." ;;
  response <- llm_invoke prompt ;;
  try_catch
    (parsed <- parse response ;;
     match parsed with
     | ParsedArray items => ret items
     | ParsedObject item => ret [item]
     | ParsedFalsy => throw {| message := "Parsed data is empty" |}
     end)
    (fun err => console_error "Failed to parse synthetic data" err ;; ret []).

Definition createItemSummary (item : Item number) : M string :=
  new_Promise (fun resolve =>
    let manufacturesDetails :=
      "Made in " +:+ country (manufacturer_address item) in
    let categories := String.concat "," (categories item) in
    let userReviews :=
      String.concat " "
        (map (fun review =>
                "Rated " +:+ numberToString (rating review) +:+ " on "
                +:+ review_date review +:+ ": " +:+ comment review)
             (user_reviews item)) in
    let basicInfo :=
      item_name item +:+ " " +:+ item_description item
      +:+ " from the brand " +:+ brand item in
    let price :=
      "At full price it costs: $" +:+ numberToString (full_price (prices item))
      +:+ " USD," +:+ LF +:+ "     Onsale it costs "
      +:+ numberToString (sale_price (prices item)) +:+ " USD" in
    let notes := notes item in
    let summary :=
      basicInfo +:+ ", Manufacturer: " +:+ manufacturesDetails +:+ ","
      +:+ LF +:+ "    Categories: " +:+ categories
      +:+ ", Reviews: " +:+ userReviews
      +:+ ", Price: " +:+ price +:+ ", Notes: " +:+ notes in
    resolve summary).

Definition seedDatabase : M unit :=
  try_catch
    (client_connect ;;
     admin_ping ;;
     console_log "You successfully connected to MongoDB Atlas" ;;
     setupDatabaseAndCollection ;;
     createVectorSearchIndex ;;
     collection_deleteMany ;;
     console_log "Cleared existing documents in 'items' collection" ;;
     syntheticData <- generateSyntheticData ;;
     recordsWithSummaries <-
       Promise_all
         (map (fun record =>
                 summary <- createItemSummary record ;;
                 ret {| pageContent := summary; metadata := record |})
              syntheticData) ;;
     for_of recordsWithSummaries (fun record =>
       MongoDBAtlasVectorSearch_fromDocuments
         [record] "vector_index" "embedding_text" "embedding" ;;
       console_log ("successfully processed and saved record "
                    +:+ item_id (metadata record))))
    (fun error => console_error "" error).

End Seed.

(** ** The chat routes of the HTTP server *)

Module Server.

(** A JSON object with string values. *)
Definition Json : Type := list (string * string).

(** The request: the [:threadId] segment of the path (absent on [/chat])
    and the [message] field of the JSON body. *)
Record Request := {
  params_threadId : string;
  body_message : string
}.

(** The response object [res]: the status code set so far (200 unless
    changed) and the body, once one has been sent. *)
Record Response := {
  statusCode : Z;
  sent : option Json
}.

Definition fresh_response : Response := {| statusCode := 200; sent := None |}.

Definition res_status (code : Z) (res : Response) : Response :=
  {| statusCode := code; sent := sent res |}.

Definition res_json (body : Json) (res : Response) : Response :=
  {| statusCode := statusCode res; sent := Some body |}.

(** What a handler leaves behind: the response object and the console. *)
Record Handled := {
  res : Response;
  printed : list LogLine
}.

Section Routes.

(** [callAgent(client, message, threadId)] of [./agent], which is not part
    of the sources at hand: it resolves to the reply text or rejects. *)
Variable callAgent : string -> string -> Result string.

(** [Date.now()], in milliseconds. *)
Variable Date_now : Z.

(** [app.post('/chat', ...)] *)
Definition post_chat (req : Request) : Handled :=
  let initialMessage := body_message req in
  let threadId := numberToString Date_now in
  let printed := [Log initialMessage] in
  match callAgent initialMessage threadId with
  | Ok response =>
      {| res := fresh_response; printed := printed |}
  | Throw error =>
      {| res := res_json [("error", "Internal server error")]
                  (res_status 500 fresh_response);
         printed := printed ++ [LogError "Error starting conversation" error] |}
  end.

(** [app.post('/chat/:threadId', ...)] *)
Definition post_chat_threadId (req : Request) : Handled :=
  let threadId := params_threadId req in
  let message := body_message req in
  match callAgent message threadId with
  | Ok response =>
      {| res := res_json [("response", response)] fresh_response;
         printed := [] |}
  | Throw error =>
      {| res := res_json [("error", "Internal server error")]
                  (res_status 500 fresh_response);
         printed := [LogError "Error in chat" error] |}
  end.

End Routes.

End Server.

(** ** The sentences of a summary *)

Section Sentences.

Context {number : Type} {JN : JsNumber number}.

(** The parts that the specification lists for a summary. *)
Inductive Field :=
| Provenance
| Categories
| Reviews
| Description
| PricePair
| Notes.

(** What a part contributes to the text: the provenance "Made in
    <country>", the categories joined by commas, one sentence "Rated
    <rating> on <date>: <comment>" for each review, the description and the
    brand, the two prices, the notes as they are.  The words and the
    separators that the summary puts between them are left open. *)
Definition sentence (item : Item number) (f : Field) : list string :=
  match f with
  | Provenance => ["Made in " +:+ country (manufacturer_address item)]
  | Categories => [String.concat "," (categories item)]
  | Reviews =>
      map (fun review =>
             "Rated " +:+ numberToString (rating review) +:+ " on "
             +:+ review_date review +:+ ": " +:+ comment review)
          (user_reviews item)
  | Description => [item_description item; brand item]
  | PricePair =>
      [numberToString (full_price (prices item));
       numberToString (sale_price (prices item))]
  | Notes => [notes item]
  end.

Definition sentences (order : list Field) (item : Item number)
  : list string :=
  flat_map (sentence item) order.

(** The order of the parts in the words of the specification. *)
Definition spec_order : list Field :=
  [Provenance; Categories; Reviews; Description; PricePair; Notes].

(** The order of the parts in [createItemSummary]. *)
Definition code_order : list Field :=
  [Description; Provenance; Categories; Reviews; PricePair; Notes].

End Sentences.

(** ** Concrete records, services and worlds *)

(** The record of the example scenario, its unspecified fields filled in. *)
Definition oakChair : Item Z :=
  {| item_id := "SKU1";
     item_name := "Oak Chair";
     item_description := "A solid oak dining chair";
     brand := "Acme";
     manufacturer_address :=
       {| street := "1 Mill Road"; city := "Portland"; state := "OR";
          postal_code := "97201"; country := "USA" |};
     prices := {| full_price := 120; sale_price := 90 |};
     categories := ["chairs"; "oak"];
     user_reviews :=
       [ {| review_date := "2024-01-01"; rating := 5; comment := "sturdy" |} ];
     notes := "limited edition" |}.

Definition pineDesk : Item Z :=
  {| item_id := "SKU2";
     item_name := "Pine Desk";
     item_description := "A writing desk";
     brand := "Nord";
     manufacturer_address :=
       {| street := "4 Fjord Way"; city := "Oslo"; state := "Oslo";
          postal_code := "0150"; country := "Norway" |};
     prices := {| full_price := 300; sale_price := 250 |};
     categories := ["desks"];
     user_reviews := [];
     notes := "" |}.

(** Services for running the program on concrete input: the oracle and the
    parser's answer are given, the model replies with a fixed text and a
    text is embedded as its length. *)
Definition test_services
    (oracle : list (Event Z) -> Call Z -> option Error)
    (parsed : Result (Parsed Z)) : Services Z nat :=
  {| fault := oracle;
     llm_content := fun _ => "[model output]";
     parser_parse := fun _ => parsed;
     parser_getFormatInstructions := "[format instructions]";
     embed := String.length |}.

Definition no_fault : list (Event Z) -> Call Z -> option Error :=
  fun _ _ => None.

Definition empty_world : World Z nat :=
  {| collections := ∅; indexes := []; documents := [];
     trace := []; console := [] |}.

(** ** Reading a trace *)

Section Traces.

Context {number vector : Type}.

(** The calls made between two worlds of one run. *)
Definition events_since (w w' : World number vector) : list (Event number) :=
  drop (length (trace w)) (trace w').

(** A write of new documents into the collection. *)
Definition is_write (e : Event number) : bool :=
  match call e with
  | CFromDocuments _ _ _ _ => true
  | _ => false
  end.

(** A call of the destructive reset: index recreation and the clearing of
    the collection. *)
Definition is_reset (e : Event number) : bool :=
  match call e with
  | CDropIndexes | CCreateSearchIndex _ | CDeleteMany => true
  | _ => false
  end.

(** Neither of the two. *)
Definition quiet (e : Event number) : bool :=
  negb (is_write e) && negb (is_reset e).

Definition is_create_index (e : Event number) : bool :=
  match call e with
  | CCreateSearchIndex _ => true
  | _ => false
  end.

Definition is_failed_write (e : Event number) : bool :=
  is_write e && negb (succeeded e).

End Traces.

(** ** Specifications of runs *)

Section Specifications.

Context {number vector : Type} {JN : JsNumber number} {SV : Services number vector}.

(** A postcondition speaks of the outcome, of the calls made during the
    run and of the world the run ends in. *)
Definition Post (A : Type) : Type :=
  Result A -> list (Event number) -> World number vector -> Prop.

(** [wp m Q w]: run from [w], the computation [m] only adds to the trace
    and ends as [Q] says. *)
Definition wp {A} (m : M number vector A) (Q : Post A)
    (w : World number vector) : Prop :=
  exists new,
    trace (snd (m w)) = trace w ++ new /\ Q (fst (m w)) new (snd (m w)).

(** The index described in [createVectorSearchIndex]. *)
Definition vector_index : SearchIndexDescription :=
  {| name := "vector_index";
     type := "vectorSearch";
     definition :=
       [ {| field_type := "vector";
            path := "embedding";
            numdimensions := 768;
            similarity := "cosine" |} ] |}.

(** The events of the reset, of the generation and of the writes in the
    loop of [seedDatabase]. *)
Definition dropped (ok : bool) : Event number :=
  {| call := CDropIndexes; succeeded := ok |}.

Definition created (ok : bool) : Event number :=
  {| call := CCreateSearchIndex vector_index; succeeded := ok |}.

Definition cleared (ok : bool) : Event number :=
  {| call := CDeleteMany; succeeded := ok |}.

Definition invoked (prompt : string) (ok : bool) : Event number :=
  {| call := CLlmInvoke prompt; succeeded := ok |}.

Definition wrote (ok : bool) (d : Document number) : Event number :=
  {| call := CFromDocuments [d] "vector_index" "embedding_text" "embedding";
     succeeded := ok |}.

(** A document made by [seedDatabase] from a record: its text is the
    summary compiled from its metadata. *)
Definition summarised (d : Document number) : Prop :=
  forall w : World number vector,
    createItemSummary (metadata d) w = (Ok (pageContent d), w).

(** The event of the write that failed, if the loop stopped at one. *)
Definition stopped_at (rest : list (Document number)) : list (Event number) :=
  match rest with
  | [] => []
  | d :: _ => [wrote false d]
  end.

(** What [generateSyntheticData] makes of the parser's answer. *)
Definition records_of (parsed : Result (Parsed number))
  : list (Item number) :=
  match parsed with
  | Ok (ParsedArray items) => items
  | Ok (ParsedObject item) => [item]
  | Ok ParsedFalsy => []
  | Throw _ => []
  end.

(** The calls of [createVectorSearchIndex]: the drop, and the creation
    once the drop has succeeded. *)
Definition index_events (idx : list (Event number)) : Prop :=
  idx = [dropped false]
  \/ idx = [dropped true; created false]
  \/ idx = [dropped true; created true].

(** The calls of [seedDatabase] after the clearing of the collection, whose
    outcome is the first argument, and the documents that the collection
    holds in the end: nothing when the clearing failed; the call to the
    model; when it returned, the writes of the documents made from the
    records of the parser, up to the first write that failed. *)
Inductive seed_tail (final : list (StoredDocument number vector))
  : bool -> list (Event number) -> Prop :=
| tail_clear_failed : seed_tail final false []
| tail_invoke_failed prompt :
    final = [] -> seed_tail final true [invoked prompt false]
| tail_writes prompt done rest :
    map metadata (done ++ rest)
    = records_of (parser_parse (llm_content prompt)) ->
    Forall summarised (done ++ rest) ->
    final = map stored done ->
    seed_tail final true
      (invoked prompt true :: map (wrote true) done ++ stopped_at rest).

(** The calls of a whole run of [seedDatabase]: either the run stops
    before it reaches the indexes, or it makes the calls of the index
    recreation, clears the collection and goes on as [seed_tail] says. *)
Inductive seed_run (final : list (StoredDocument number vector))
  : list (Event number) -> Prop :=
| seed_stopped_early q :
    Forall (fun e => quiet e = true) q -> seed_run final q
| seed_reached_reset q idx ok tail :
    Forall (fun e => quiet e = true) q ->
    index_events idx ->
    seed_tail final ok tail ->
    seed_run final (q ++ idx ++ cleared ok :: tail).

(** The method behind a call, for short traces. *)
Definition method (c : Call number) : string :=
  match c with
  | CConnect => "connect"
  | CPing => "command"
  | CListCollections _ => "listCollections"
  | CCreateCollection _ => "createCollection"
  | CDropIndexes => "dropIndexes"
  | CCreateSearchIndex _ => "createSearchIndex"
  | CDeleteMany => "deleteMany"
  | CLlmInvoke _ => "invoke"
  | CFromDocuments _ _ _ _ => "fromDocuments"
  end.

Definition outline (events : list (Event number)) : list (string * bool) :=
  map (fun e => (method (call e), succeeded e)) events.

End Specifications.

(** The oracle under which the generative model is unreachable. *)
Definition model_down : list (Event Z) -> Call Z -> option Error :=
  fun _ c =>
    match c with
    | CLlmInvoke _ => Some {| message := "model unavailable" |}
    | _ => None
    end.

(** The oracle under which the search index cannot be created. *)
Definition index_down : list (Event Z) -> Call Z -> option Error :=
  fun _ c =>
    match c with
    | CCreateSearchIndex _ => Some {| message := "index not created" |}
    | _ => None
    end.

(** The oracle under which the indexes cannot be dropped. *)
Definition drop_down : list (Event Z) -> Call Z -> option Error :=
  fun _ c =>
    match c with
    | CDropIndexes => Some {| message := "indexes not dropped" |}
    | _ => None
    end.

(** An index of an earlier setup, with another metric and dimension. *)
Definition old_index : SearchIndexDescription :=
  {| name := "vector_index";
     type := "vectorSearch";
     definition :=
       [ {| field_type := "vector";
            path := "embedding";
            numdimensions := 512;
            similarity := "euclidean" |} ] |}.

(** A database that has the collection and that index already. *)
Definition stale_world : World Z nat :=
  {| collections := {[ "items" ]}; indexes := [old_index]; documents := [];
     trace := []; console := [] |}.

(** The oracle under which only the first write of a run goes through. *)
Definition second_write_fails : list (Event Z) -> Call Z -> option Error :=
  fun history c =>
    match c with
    | CFromDocuments _ _ _ _ =>
        if existsb is_write history
        then Some {| message := "write rejected" |}
        else None
    | _ => None
    end.

(** The document that [seedDatabase] makes from a record. *)
Definition document_of (item : Item Z) : Document Z :=
  {| pageContent :=
       match fst (createItemSummary item empty_world) with
       | Ok summary => summary
       | Throw _ => ""
       end;
     metadata := item |}.

(** The services of the runs below: the parser yields the two records. *)
Definition two_records (oracle : list (Event Z) -> Call Z -> option Error)
  : Services Z nat :=
  test_services oracle (Ok (ParsedArray [oakChair; pineDesk])).

(** The world that a run of [seedDatabase] on the two records ends in. *)
Definition seeded (oracle : list (Event Z) -> Call Z -> option Error)
  : World Z nat :=
  snd (seedDatabase (SV := two_records oracle) empty_world).

(** The calls of that run. *)
Definition seeding (oracle : list (Event Z) -> Call Z -> option Error)
  : list (Event Z) :=
  events_since empty_world (seeded oracle).

(** ** The outcomes of the seeding script, call by call *)

Section Outcomes.

Context {number vector : Type} {JN : JsNumber number}
  {SV : Services number vector}.

Definition connected (ok : bool) : Event number :=
  {| call := CConnect; succeeded := ok |}.

Definition pinged (ok : bool) : Event number :=
  {| call := CPing; succeeded := ok |}.

Definition listed (ok : bool) : Event number :=
  {| call := CListCollections "items"; succeeded := ok |}.

Definition made (ok : bool) : Event number :=
  {| call := CCreateCollection "items"; succeeded := ok |}.

(** A call to the generative model. *)
Definition is_invoke (e : Event number) : bool :=
  match call e with
  | CLlmInvoke _ => true
  | _ => false
  end.

(** The calls of a [setupDatabaseAndCollection] that returns normally,
    between the collections before and after it. *)
Inductive setup_done (before : gset string)
  : gset string -> list (Event number) -> Prop :=
| setup_found :
    "items" ∈ before -> setup_done before before [listed true]
| setup_made :
    "items" ∉ before ->
    setup_done before ({[ "items" ]} ∪ before) [listed true; made true].

(** The calls of a [setupDatabaseAndCollection] that raises. *)
Inductive setup_failed (before : gset string)
  : list (Event number) -> Prop :=
| setup_list_failed : setup_failed before [listed false]
| setup_make_failed :
    "items" ∉ before -> setup_failed before [listed true; made false].

(** The calls of [createVectorSearchIndex], between the indexes before
    and after it. *)
Inductive index_done (before : list SearchIndexDescription)
  : list SearchIndexDescription -> list (Event number) -> Prop :=
| index_kept : index_done before before [dropped false]
| index_lost : index_done before [] [dropped true; created false]
| index_made : index_done before [vector_index] [dropped true; created true].

(** The world [w'] has the collections, indexes and documents of [w]. *)
Definition same_store (w w' : World number vector) : Prop :=
  collections w' = collections w
  /\ indexes w' = indexes w
  /\ documents w' = documents w.

(** Every way a run of [seedDatabase] goes, from the world [w] to the
    world [w'], with the calls it makes: it stops at the first call that
    fails, except inside [createVectorSearchIndex]. *)
Inductive seed_outcome (w w' : World number vector)
  : list (Event number) -> Prop :=
| stop_at_connect :
    same_store w w' -> seed_outcome w w' [connected false]
| stop_at_ping :
    same_store w w' -> seed_outcome w w' [connected true; pinged false]
| stop_at_setup n :
    setup_failed (collections w) n ->
    same_store w w' ->
    seed_outcome w w' (connected true :: pinged true :: n)
| stop_at_clear n idx :
    setup_done (collections w) (collections w') n ->
    index_done (indexes w) (indexes w') idx ->
    documents w' = documents w ->
    seed_outcome w w'
      (connected true :: pinged true :: n ++ idx ++ [cleared false])
| stop_at_model n idx prompt :
    setup_done (collections w) (collections w') n ->
    index_done (indexes w) (indexes w') idx ->
    documents w' = [] ->
    seed_outcome w w'
      (connected true :: pinged true
         :: n ++ idx ++ [cleared true; invoked prompt false])
| ran_writes n idx prompt done rest :
    setup_done (collections w) (collections w') n ->
    index_done (indexes w) (indexes w') idx ->
    map metadata (done ++ rest)
    = records_of (parser_parse (llm_content prompt)) ->
    Forall (summarised (vector := vector)) (done ++ rest) ->
    documents w' = map stored done ->
    seed_outcome w w'
      (connected true :: pinged true
         :: n ++ idx ++ cleared true :: invoked prompt true
         :: map (wrote true) done ++ stopped_at rest).

End Outcomes.

(** ** The fields of a record that reach its summary *)

Section Searchable.

Context {number : Type} {JN : JsNumber number}.

(** The texts of a record that [createItemSummary] writes out: everything
    but the identifier and the street, city, state and postal code. *)
Definition searchable (item : Item number) : list string :=
  [item_name item; item_description item; brand item;
   country (manufacturer_address item)]
  ++ categories item
  ++ flat_map (fun review =>
                 [numberToString (rating review); review_date review;
                  comment review])
       (user_reviews item)
  ++ [numberToString (full_price (prices item));
      numberToString (sale_price (prices item));
      notes item].

(** Two records that differ at most in the fields the summary leaves
    out. *)
Definition same_embedded_fields (a b : Item number) : Prop :=
  item_name a = item_name b
  /\ item_description a = item_description b
  /\ brand a = brand b
  /\ country (manufacturer_address a) = country (manufacturer_address b)
  /\ prices a = prices b
  /\ categories a = categories b
  /\ user_reviews a = user_reviews b
  /\ notes a = notes b.

End Searchable.

(** ** The start of the HTTP server *)

Module Startup.

Inductive Method := GET | POST.

(** A route registered on [app]. *)
Record Route := {
  method : Method;
  pattern : string
}.

(** The argument of [app.listen]: the text of the environment variable,
    or the number 8000. *)
Inductive Port :=
| FromEnv (value : string)
| Fixed (n : Z).

(** The process as [starteServer] leaves it: the routes registered on
    [app], the port the server listens on once [app.listen] has been
    called without an error, and the code of [process.exit]. *)
Record Process := {
  routes : list Route;
  listening : option Port;
  exited : option Z
}.

Definition fresh : Process :=
  {| routes := []; listening := None; exited := None |}.

Declare Scope boot_scope.
Delimit Scope boot_scope with boot.

Section Start.

Context {number vector : Type} {SV : Services number vector}.

(** [process.env.PORT], absent when the variable is not set. *)
Variable env_PORT : option string.

(** [app.listen(port)] of Express, which is not part of the repository:
    the error it throws at once, if any (a port out of range, for one). *)
Variable listen_throws : Port -> option Error.

(** The [async] function [starteServer] changes the process next to the
    world, and what it has changed stays changed when an error is
    thrown. *)
Definition Boot (A : Type) : Type :=
  Process -> World number vector ->
  Result A * Process * World number vector.

Definition boot_bind {A B} (m : Boot A) (k : A -> Boot B) : Boot B :=
  fun p w =>
    match m p w with
    | (Ok a, p', w') => k a p' w'
    | (Throw e, p', w') => (Throw e, p', w')
    end.

Definition boot_try_catch {A} (body : Boot A) (handler : Error -> Boot A)
  : Boot A :=
  fun p w =>
    match body p w with
    | (Ok a, p', w') => (Ok a, p', w')
    | (Throw e, p', w') => handler e p' w'
    end.

(** An awaited call or a print, which leaves the process as it is. *)
Definition lift {A} (m : M number vector A) : Boot A :=
  fun p w => match m w with (r, w') => (r, p, w') end.

Definition app_route (m : Method) (path : string) : Boot unit :=
  fun p w =>
    (Ok tt,
     {| routes := routes p ++ [{| method := m; pattern := path |}];
        listening := listening p; exited := exited p |},
     w).

Definition app_get (path : string) : Boot unit := app_route GET path.

Definition app_post (path : string) : Boot unit := app_route POST path.

Definition app_listen (port : Port) : Boot unit :=
  fun p w =>
    match listen_throws port with
    | Some e => (Throw e, p, w)
    | None =>
        (Ok tt,
         {| routes := routes p; listening := Some port; exited := exited p |},
         w)
    end.

Definition process_exit (code : Z) : Boot unit :=
  fun p w =>
    (Ok tt,
     {| routes := routes p; listening := listening p; exited := Some code |},
     w).

Notation "c1 ;; c2" := (boot_bind c1 (fun _ => c2))
  (at level 100, right associativity) : boot_scope.

Local Open Scope boot_scope.

(** [process.env.PORT || 8000]: the empty string is falsy. *)
Definition PORT : Port :=
  match env_PORT with
  | Some value => if String.eqb value "" then Fixed 8000 else FromEnv value
  | None => Fixed 8000
  end.

(** The whole body is inside the [try], the call to [listen] too.  The
    callback of [listen], which prints the port once the server listens,
    runs after [starteServer] has returned and is left out. *)
Definition starteServer : Boot unit :=
  boot_try_catch
    (lift client_connect ;;
     lift admin_ping ;;
     lift (console_log "Successfully connected to MongoDB Atlas!") ;;
     app_get "/" ;;
     app_post "/chat" ;;
     app_post "/chat/:threadId" ;;
     app_listen PORT)
    (fun error =>
       lift (console_error "Error connecting to MongoDB" error) ;;
       process_exit 1).

End Start.

End Startup.

(** The example record under another identifier and another street
    address. *)
Definition oakChairRelabelled : Item Z :=
  {| item_id := "SKU9";
     item_name := item_name oakChair;
     item_description := item_description oakChair;
     brand := brand oakChair;
     manufacturer_address :=
       {| street := "22 Harbour Street"; city := "Seattle"; state := "WA";
          postal_code := "98101"; country := "USA" |};
     prices := prices oakChair;
     categories := categories oakChair;
     user_reviews := user_reviews oakChair;
     notes := notes oakChair |}.

(** A record whose every text is empty. *)
Definition blankItem : Item Z :=
  {| item_id := "";
     item_name := "";
     item_description := "";
     brand := "";
     manufacturer_address :=
       {| street := ""; city := ""; state := "";
          postal_code := ""; country := "" |};
     prices := {| full_price := 0; sale_price := 0 |};
     categories := [];
     user_reviews := [];
     notes := "" |}.

(** * Properties *)

(** ** Strings: searching and cutting *)

Section StringFacts.

Implicit Types (p s pre rest x : string) (ps : list string).

Lemma string_app_nil_l s : "" +:+ s = s.
Proof. reflexivity. Qed.

Lemma string_app_cons c s1 s2 : String c s1 +:+ s2 = String c (s1 +:+ s2).
Proof. reflexivity. Qed.

Lemma string_app_assoc s1 s2 s3 : (s1 +:+ s2) +:+ s3 = s1 +:+ s2 +:+ s3.
Proof.
  induction s1 as [|c s1 IH]; [reflexivity|].
  rewrite !string_app_cons. now rewrite IH.
Qed.

Lemma string_length_app s1 s2 :
  String.length (s1 +:+ s2) = (String.length s1 + String.length s2)%nat.
Proof.
  induction s1 as [|c s1 IH]; [reflexivity|].
  rewrite string_app_cons. cbn [String.length]. now rewrite IH.
Qed.

Lemma prefix_app p rest : String.prefix p (p +:+ rest) = true.
Proof.
  induction p as [|c p IH].
  - destruct rest; reflexivity.
  - rewrite string_app_cons. cbn [String.prefix].
    destruct (ascii_dec c c) as [_|Hne]; [exact IH|now destruct Hne].
Qed.

Lemma drop_string_app p rest : drop_string (String.length p) (p +:+ rest) = rest.
Proof.
  induction p as [|c p IH]; [reflexivity|].
  rewrite string_app_cons. exact IH.
Qed.

Lemma prefix_split p : forall s,
  String.prefix p s = true -> s = p +:+ drop_string (String.length p) s.
Proof.
  induction p as [|c p IH]; intros s Hp; [reflexivity|].
  destruct s as [|b s]; [discriminate|].
  cbn [String.prefix] in Hp.
  destruct (ascii_dec c b) as [->|]; [|discriminate].
  rewrite string_app_cons. cbn [String.length drop_string].
  f_equal. now apply IH.
Qed.

(** Two ways of cutting one string: the shorter tail ends the longer. *)
Lemma string_tail_of_tail s1 : forall s2 t1 t2,
  s1 +:+ t1 = s2 +:+ t2 ->
  (String.length t2 <= String.length t1)%nat ->
  exists x, t1 = x +:+ t2.
Proof.
  induction s1 as [|c s1 IH]; intros s2 t1 t2 Heq Hlen.
  - exists s2. exact Heq.
  - destruct s2 as [|b s2].
    + rewrite string_app_nil_l in Heq. subst t2.
      rewrite string_app_cons in Hlen. cbn [String.length] in Hlen.
      rewrite string_length_app in Hlen. lia.
    + rewrite !string_app_cons in Heq. injection Heq as _ Heq.
      exact (IH _ _ _ Heq Hlen).
Qed.

Lemma find_after_eq p s :
  find_after p s =
  if String.prefix p s then Some (drop_string (String.length p) s)
  else match s with
       | EmptyString => None
       | String _ s' => find_after p s'
       end.
Proof. destruct s; reflexivity. Qed.

(** The leftmost occurrence leaves at least as much as any other. *)
Lemma find_after_leftmost p rest : forall pre,
  exists x, find_after p (pre +:+ p +:+ rest) = Some (x +:+ rest).
Proof.
  induction pre as [|c pre IH].
  - exists "". rewrite find_after_eq, string_app_nil_l, prefix_app.
    now rewrite drop_string_app.
  - rewrite find_after_eq.
    destruct (String.prefix p (String c pre +:+ p +:+ rest)) eqn:Hp.
    + apply prefix_split in Hp.
      set (s := String c pre +:+ p +:+ rest) in *.
      assert (Hlen : String.length s
                     = (String.length p
                        + String.length (drop_string (String.length p) s))%nat).
      { rewrite Hp at 1. apply string_length_app. }
      assert (Hs : s = (String c pre +:+ p) +:+ rest).
      { unfold s. now rewrite string_app_assoc. }
      destruct (string_tail_of_tail p (String c pre +:+ p)
                  (drop_string (String.length p) s) rest) as [x Hx].
      * rewrite <- Hp. exact Hs.
      * rewrite Hs in Hlen at 1.
        rewrite !string_length_app in Hlen. lia.
      * exists x. now rewrite Hx.
    + rewrite string_app_cons. exact IH.
Qed.

Lemma find_after_sound p : forall s rest,
  find_after p s = Some rest -> exists pre, s = pre +:+ p +:+ rest.
Proof.
  induction s as [|c s IH]; intros rest Hf; rewrite find_after_eq in Hf.
  - destruct (String.prefix p "") eqn:Hp; [|discriminate].
    injection Hf as <-. exists "". now apply prefix_split.
  - destruct (String.prefix p (String c s)) eqn:Hp.
    + injection Hf as <-. exists "". now apply prefix_split.
    + destruct (IH _ Hf) as [pre ->]. now exists (String c pre).
Qed.

Lemma InOrder_prepend ps s x : InOrder ps s -> InOrder ps (x +:+ s).
Proof.
  intros [s'|p ps' pre rest Hrest]; [constructor|].
  rewrite <- string_app_assoc. now constructor.
Qed.

(** The search decides the proposition. *)
Lemma in_order_spec ps : forall s, in_order ps s = true <-> InOrder ps s.
Proof.
  induction ps as [|p ps IH]; intros s; cbn [in_order].
  - split; [constructor|reflexivity].
  - split.
    + destruct (find_after p s) as [rest|] eqn:Hf; [|discriminate].
      intros Hin. destruct (find_after_sound _ _ _ Hf) as [pre ->].
      constructor. now apply IH.
    + intros Hin. inversion Hin as [|p' ps' pre rest Hrest]; subst.
      destruct (find_after_leftmost p rest pre) as [x ->].
      apply IH. now apply InOrder_prepend.
Qed.

Lemma includes_spec s p :
  includes s p = true <-> exists pre post, s = pre +:+ p +:+ post.
Proof.
  unfold includes. split.
  - destruct (find_after p s) as [rest|] eqn:Hf; [|discriminate].
    intros _. destruct (find_after_sound _ _ _ Hf) as [pre ->]. eauto.
  - intros (pre & post & ->).
    now destruct (find_after_leftmost p post pre) as [x ->].
Qed.

End StringFacts.

(** ** The monad and the outside calls *)

Section EffectFacts.

Context {number vector : Type} {SV : Services number vector}.

Notation World := (World number vector).
Notation Call := (Call number).

Lemma events_since_app (w w' : World) new :
  trace w' = trace w ++ new -> events_since w w' = new.
Proof. unfold events_since. intros ->. apply drop_app_length. Qed.

Lemma trace_store_effect (c : Call) (w : World) :
  trace (store_effect c w) = trace w.
Proof. now destruct c. Qed.

End EffectFacts.

(** One step of a run: decide the oracle's answer to the next call. *)
Ltac oracle :=
  match goal with
  | |- context [fault ?h ?c] => destruct (fault h c) eqn:?
  | H : context [fault ?h ?c] |- _ => destruct (fault h c) eqn:?
  end.

Ltac run_ops :=
  unfold client_connect, admin_ping, db_listCollections, db_createCollection,
    collection_dropIndexes, collection_createSearchIndex,
    collection_deleteMany, llm_invoke, MongoDBAtlasVectorSearch_fromDocuments,
    external, console_log, console_error, try_catch, bind, ret, throw, gets in *;
  cbn [fst snd trace collections indexes documents console
       record_event store_effect] in *.

(** ** Database setup and index recreation *)

Section SetupFacts.

Context {number vector : Type} {SV : Services number vector}.

Notation World := (World number vector).

(** Every way a run of [setupDatabaseAndCollection] can go. *)
Lemma setupDatabaseAndCollection_run (w : World) :
  let r := fst (setupDatabaseAndCollection w) in
  let w' := snd (setupDatabaseAndCollection w) in
  let listed ok := {| call := CListCollections "items"; succeeded := ok |} in
  let created ok := {| call := CCreateCollection "items"; succeeded := ok |} in
  exists new,
    trace w' = trace w ++ new
    /\ indexes w' = indexes w /\ documents w' = documents w
    /\ (("items" ∈ collections w /\ collections w' = collections w
         /\ exists ok, new = [listed ok])
        \/ (("items" ∉ collections w)
            /\ ((r <> Ok tt /\ collections w' = collections w
                 /\ (new = [listed false] \/ new = [listed true; created false]))
                \/ (r = Ok tt /\ collections w' = {[ "items" ]} ∪ collections w
                    /\ new = [listed true; created true])))).
Proof.
  cbv zeta. unfold setupDatabaseAndCollection. run_ops.
  oracle; cbn.
  - eexists. split; [reflexivity|]. do 2 (split; [reflexivity|]).
    destruct (decide ("items" ∈ collections w)); [left|right]; eauto 10.
  - destruct (decide ("items" ∈ collections w)) as [Hin|Hnotin]; cbn.
    + eexists. split; [reflexivity|]. do 2 (split; [reflexivity|]).
      left. eauto.
    + oracle; cbn; rewrite <- app_assoc;
        (eexists; split; [reflexivity|]; do 2 (split; [reflexivity|]);
         right; split; [assumption|]); [left|right]; eauto 10.
Qed.

(** C10. [setupDatabaseAndCollection] is idempotent.  In a run that
    returns normally, ['items'] is created only when the database has no
    collection of that name, and the collection exists afterwards; a second
    run then only lists the collections: it creates nothing and leaves the
    set of collections as it is. *)
Theorem setupDatabaseAndCollection_idempotent (w : World) :
  let w1 := snd (setupDatabaseAndCollection w) in
  let w2 := snd (setupDatabaseAndCollection w1) in
  fst (setupDatabaseAndCollection w) = Ok tt ->
  (In (CCreateCollection "items") (map call (events_since w w1)) ->
   "items" ∉ collections w)
  /\ "items" ∈ collections w1
  /\ collections w2 = collections w1
  /\ exists ok,
       events_since w1 w2
       = [{| call := CListCollections "items"; succeeded := ok |}].
Proof.
  intros w1 w2 Hok.
  destruct (setupDatabaseAndCollection_run w)
    as (new & Htr & _ & _ & Hcases). fold w1 in Htr, Hcases.
  rewrite (events_since_app _ _ _ Htr).
  assert (Hitems : "items" ∈ collections w1).
  { destruct Hcases as [(Hin & -> & _)|(_ & [(Hr & _)|(_ & -> & _)])].
    - exact Hin.
    - now destruct Hr.
    - set_solver. }
  split; [|split; [exact Hitems|]].
  - destruct Hcases as [(_ & _ & ok & ->)|(Hnotin & _)]; [|now intros _].
    cbn. intros [Hc|[]]. discriminate Hc.
  - destruct (setupDatabaseAndCollection_run w1)
      as (new2 & Htr2 & _ & _ & [(_ & Hcol & ok & ->)|(Hnotin & _)]).
    + fold w2 in Htr2, Hcol. split; [exact Hcol|].
      exists ok. now apply events_since_app.
    + now destruct Hnotin.
Qed.

End SetupFacts.

(** ** Rules for runs *)

Section RunRules.

Context {number vector : Type} {JN : JsNumber number} {SV : Services number vector}.

Notation World := (World number vector).
Notation Call := (Call number).
Notation M := (M number vector).

Lemma wp_conseq {A} (m : M A) (Q Q' : Post A) (w : World) :
  wp m Q w -> (forall r new w', Q r new w' -> Q' r new w') -> wp m Q' w.
Proof. intros (new & Htr & HQ) Himp. exists new. auto. Qed.

Lemma wp_ret {A} (a : A) (Q : Post A) (w : World) :
  Q (Ok a) [] w -> wp (ret a) Q w.
Proof. intros HQ. exists []. cbn. now rewrite app_nil_r. Qed.

Lemma wp_throw {A} (e : Error) (Q : Post A) (w : World) :
  Q (Throw e) [] w -> wp (throw e) Q w.
Proof. intros HQ. exists []. cbn. now rewrite app_nil_r. Qed.

Lemma wp_bind {A B} (m : M A) (k : A -> M B) (Q : Post B) (w : World) :
  wp m (fun r new w1 =>
          match r with
          | Ok a => wp (k a) (fun r2 new2 w2 => Q r2 (new ++ new2) w2) w1
          | Throw e => Q (Throw e) new w1
          end) w ->
  wp (bind m k) Q w.
Proof.
  unfold wp, bind. intros (new & Htr & HQ).
  destruct (m w) as [[a|e] w1]; cbn in *.
  - destruct HQ as (new2 & Htr2 & HQ). exists (new ++ new2).
    split; [|exact HQ]. now rewrite Htr2, Htr, app_assoc.
  - exists new. auto.
Qed.

Lemma wp_gets {A} (f : World -> A) (Q : Post A) (w : World) :
  Q (Ok (f w)) [] w -> wp (gets f) Q w.
Proof. intros HQ. exists []. cbn. now rewrite app_nil_r. Qed.

(** A computation that is known to return without touching the world. *)
Lemma wp_pure {A} (m : M A) (a : A) (Q : Post A) (w : World) :
  m w = (Ok a, w) -> Q (Ok a) [] w -> wp m Q w.
Proof. intros Hm HQ. exists []. rewrite Hm. cbn. now rewrite app_nil_r. Qed.

Lemma wp_try_catch {A} (body : M A) (handler : Error -> M A)
    (Q : Post A) (w : World) :
  wp body (fun r new w1 =>
             match r with
             | Ok a => Q (Ok a) new w1
             | Throw e =>
                 wp (handler e) (fun r2 new2 w2 => Q r2 (new ++ new2) w2) w1
             end) w ->
  wp (try_catch body handler) Q w.
Proof.
  unfold wp, try_catch. intros (new & Htr & HQ).
  destruct (body w) as [[a|e] w1]; cbn in *.
  - exists new. auto.
  - destruct HQ as (new2 & Htr2 & HQ). exists (new ++ new2).
    split; [|exact HQ]. now rewrite Htr2, Htr, app_assoc.
Qed.

Lemma wp_console_log text (Q : Post unit) (w : World) :
  Q (Ok tt) [] (snd (console_log text w)) -> wp (console_log text) Q w.
Proof. intros HQ. exists []. cbn. now rewrite app_nil_r. Qed.

Lemma wp_console_error text e (Q : Post unit) (w : World) :
  Q (Ok tt) [] (snd (console_error text e w)) ->
  wp (console_error text e) Q w.
Proof. intros HQ. exists []. cbn. now rewrite app_nil_r. Qed.

Lemma wp_external (c : Call) (Q : Post unit) (w : World) :
  (forall e, fault (trace w) c = Some e ->
             Q (Throw e) [{| call := c; succeeded := false |}]
               (record_event c false w)) ->
  (fault (trace w) c = None ->
   Q (Ok tt) [{| call := c; succeeded := true |}]
     (record_event c true (store_effect c w))) ->
  wp (external c) Q w.
Proof.
  intros Hfail Hok. unfold wp, external.
  destruct (fault (trace w) c) as [e|]; cbn.
  - eexists. split; [reflexivity|]. now apply Hfail.
  - eexists. rewrite trace_store_effect. split; [reflexivity|]. now apply Hok.
Qed.

(** What a run is known to do can be read off its [wp]. *)
Lemma wp_events_since {A} (m : M A) (Q : Post A) (w : World) :
  wp m Q w -> Q (fst (m w)) (events_since w (snd (m w))) (snd (m w)).
Proof. intros (new & Htr & HQ). now rewrite (events_since_app _ _ _ Htr). Qed.

End RunRules.

Ltac wp_step :=
  lazymatch goal with
  | |- wp (bind _ _) _ _ => apply wp_bind
  | |- wp (try_catch _ _) _ _ => apply wp_try_catch
  | |- wp (ret _) _ _ => apply wp_ret
  | |- wp (throw _) _ _ => apply wp_throw
  | |- wp (gets _) _ _ => apply wp_gets
  | |- wp (console_log _) _ _ => apply wp_console_log
  | |- wp (console_error _ _) _ _ => apply wp_console_error
  | |- wp (external _) _ _ => apply wp_external; [intros ? ?|intros ?]
  end.

Ltac wp_simpl :=
  cbn [fst snd trace collections indexes documents console
       console_log console_error record_event store_effect app].

Ltac wp_simpl_in H :=
  cbn [fst snd trace collections indexes documents console
       console_log console_error record_event store_effect app] in H.

Ltac wp_steps := repeat (wp_step; wp_simpl).

(** ** Index recreation *)

Section IndexFacts.

Context {number vector : Type} {SV : Services number vector}.

Notation World := (World number vector).
Notation Event := (Event number).

(** Every way a run of [createVectorSearchIndex] can go. *)
Lemma createVectorSearchIndex_spec (w : World) :
  wp createVectorSearchIndex
    (fun r new w' =>
       r = Ok tt
       /\ collections w' = collections w /\ documents w' = documents w
       /\ ((new = [dropped false] /\ indexes w' = indexes w)
           \/ (new = [dropped true; created false] /\ indexes w' = [])
           \/ (new = [dropped true; created true]
               /\ indexes w' = [vector_index]))) w.
Proof.
  unfold createVectorSearchIndex, collection_dropIndexes,
    collection_createSearchIndex. cbv zeta.
  wp_steps; auto 10.
Qed.

End IndexFacts.

(** ** Generation, summaries and the write loop *)

Section SeedFacts.

Context {number vector : Type} {JN : JsNumber number} {SV : Services number vector}.

Notation World := (World number vector).
Notation Event := (Event number).
Notation Document := (Document number).

Lemma setupDatabaseAndCollection_spec (w : World) :
  wp setupDatabaseAndCollection
    (fun r new w' =>
       indexes w' = indexes w /\ documents w' = documents w
       /\ Forall (fun e => quiet e = true) new) w.
Proof.
  unfold setupDatabaseAndCollection, db_listCollections, db_createCollection.
  wp_steps; auto.
  destruct (decide ("items" ∈ collections w)); cbn [length Nat.eqb];
    wp_steps; auto 10.
Qed.

(** Whatever the model or the parser do, [generateSyntheticData] makes the
    one call to the model, and it raises exactly when that call fails. *)
Lemma generateSyntheticData_spec :
  exists prompt, forall w : World,
    wp generateSyntheticData
      (fun r new w' =>
         collections w' = collections w /\ indexes w' = indexes w
         /\ documents w' = documents w
         /\ ((exists e, fault (trace w) (CLlmInvoke prompt) = Some e
                        /\ r = Throw e /\ new = [invoked prompt false])
             \/ (fault (trace w) (CLlmInvoke prompt) = None
                 /\ r = Ok (records_of (parser_parse (llm_content prompt)))
                 /\ new = [invoked prompt true]))) w.
Proof.
  eexists. intros w. unfold generateSyntheticData, llm_invoke, parse.
  cbv zeta. wp_steps.
  - do 3 (split; [reflexivity|]). left. eauto.
  - destruct (parser_parse _) as [[items|item|]|e]; wp_steps;
      (do 3 (split; [reflexivity|])); right; auto.
Qed.

(** The summaries are compiled without a call and without a change. *)
Lemma createItemSummary_returns (item : Item number) :
  exists summary, forall w : World,
    createItemSummary item w = (Ok summary, w).
Proof. eexists. intros w. reflexivity. Qed.

Lemma Promise_all_summaries (records : list (Item number)) (w : World) :
  exists docs,
    Promise_all
      (map (fun record =>
              summary <- createItemSummary record ;;
              ret {| pageContent := summary; metadata := record |})
           records) w
    = (Ok docs, w)
    /\ map metadata docs = records /\ Forall (summarised (vector := vector)) docs.
Proof.
  induction records as [|record records (docs & Hrun & Hmeta & Hsum)].
  - exists []. repeat split. constructor.
  - destruct (createItemSummary_returns record) as [summary Hsummary].
    exists ({| pageContent := summary; metadata := record |} :: docs).
    split; [|split].
    + cbn [map Promise_all]. unfold bind, ret in *.
      rewrite Hsummary. now rewrite Hrun.
    + cbn. now rewrite Hmeta.
    + constructor; [exact Hsummary|exact Hsum].
Qed.

(** The loop writes the documents one by one and stops at the first
    write that fails; what was written before stays. *)
Lemma write_loop_spec (docs : list Document) : forall w : World,
  wp (for_of docs (fun record =>
        MongoDBAtlasVectorSearch_fromDocuments
          [record] "vector_index" "embedding_text" "embedding" ;;
        console_log ("successfully processed and saved record "
                     +:+ item_id (metadata record))))
    (fun r new w' =>
       collections w' = collections w /\ indexes w' = indexes w
       /\ exists done rest,
            docs = done ++ rest
            /\ documents w' = documents w ++ map stored done
            /\ new = map (wrote true) done ++ stopped_at rest
            /\ (rest = [] -> r = Ok tt)) w.
Proof.
  induction docs as [|d docs IH]; intros w; cbn [for_of].
  - wp_steps. do 2 (split; [reflexivity|]). exists [], [].
    cbn [map stopped_at app]. rewrite app_nil_r. repeat split.
  - unfold MongoDBAtlasVectorSearch_fromDocuments at 1. wp_steps.
    + do 2 (split; [reflexivity|]). exists [], (d :: docs).
      cbn [map stopped_at app]. rewrite app_nil_r. repeat split. discriminate.
    + eapply wp_conseq; [apply IH|]. wp_simpl.
      intros r new w' (Hc & Hi & done & rest & -> & Hdocs & -> & Hr).
      do 2 (split; [assumption|]). exists (d :: done), rest.
      rewrite Hdocs, <- app_assoc. repeat split. exact Hr.
Qed.

(** The calls of every run of [seedDatabase], which never raises. *)
Lemma seedDatabase_spec (w : World) :
  wp seedDatabase
    (fun r new w' => r = Ok tt /\ seed_run (documents w') new) w.
Proof.
  destruct generateSyntheticData_spec as [prompt Hgen].
  unfold seedDatabase. apply wp_try_catch.
  eapply wp_conseq with
    (Q := fun r new w' => seed_run (documents w') new).
  2: { intros [[]|e] new w' Hrun; [now split|].
       wp_steps. rewrite app_nil_r. now split. }
  unfold client_connect, admin_ping, collection_deleteMany.
  wp_steps.
  - apply seed_stopped_early. now repeat constructor.
  - apply seed_stopped_early. now repeat constructor.
  - eapply wp_conseq; [apply setupDatabaseAndCollection_spec|].
    intros [[]|e] n_setup w1 (_ & _ & Hquiet); wp_simpl.
    2: { apply seed_stopped_early. now repeat constructor. }
    wp_step. eapply wp_conseq; [apply createVectorSearchIndex_spec|].
    intros r n_idx w2 (-> & _ & _ & Hidx).
    assert (Hshape : index_events n_idx).
    { unfold index_events. tauto. }
    clear Hidx. wp_steps.
    + apply (seed_reached_reset _ (_ :: _ :: n_setup) n_idx false []);
        [now repeat constructor|assumption|constructor].
    + eapply wp_conseq; [apply Hgen|].
      intros r n_gen w3 (_ & _ & Hdocs & Hcases). wp_simpl_in Hdocs.
      destruct Hcases as [(e & _ & -> & ->)|(_ & -> & ->)]; wp_simpl.
      * apply (seed_reached_reset _ (_ :: _ :: n_setup) n_idx true [_]);
          [now repeat constructor|assumption|now constructor].
      * wp_step.
        destruct (Promise_all_summaries
                    (records_of (parser_parse (llm_content prompt))) w3)
          as (docs & Hall & Hmeta & Hsum).
        eapply wp_pure; [exact Hall|]. wp_simpl.
        eapply wp_conseq; [apply write_loop_spec|].
        intros r n_loop w4 (_ & _ & done & rest & -> & Hfinal & -> & _).
        rewrite Hdocs in Hfinal. cbn [app] in Hfinal.
        apply (seed_reached_reset _ (_ :: _ :: n_setup) n_idx true (_ :: _));
          [now repeat constructor|assumption|].
        now apply tail_writes.
Qed.

End SeedFacts.

(** ** Cutting a trace at an event *)

Section TraceCuts.

Context {E : Type} (P : E -> bool).

(** An event that satisfies [P] does not lie in a list without one. *)
Lemma no_occurrence (l pre post : list E) (y : E) :
  Forall (fun e => P e = false) l -> l = pre ++ y :: post -> P y = true ->
  False.
Proof.
  intros Hl -> Hy. apply Forall_app in Hl as [_ Hl].
  apply Forall_cons in Hl as [Hl _]. congruence.
Qed.

(** Behind a prefix without [P], a cut at a [P] event falls in the rest. *)
Lemma cut_after_prefix (a : list E) : forall ws pre post y,
  Forall (fun e => P e = false) a ->
  a ++ ws = pre ++ y :: post -> P y = true ->
  exists ws1, pre = a ++ ws1 /\ ws = ws1 ++ y :: post.
Proof.
  induction a as [|x a IH]; intros ws pre post y Ha Heq Hy.
  - exists pre. auto.
  - apply Forall_cons in Ha as [Hx Ha]. destruct pre as [|x' pre].
    + cbn in Heq. injection Heq as -> _. congruence.
    + cbn in Heq. injection Heq as <- Heq.
      destruct (IH _ _ _ _ Ha Heq Hy) as (ws1 & -> & ->). now exists ws1.
Qed.

(** A list with a single [P] event is cut at that event and nowhere else. *)
Lemma cut_unique (a : list E) : forall b x pre post y,
  Forall (fun e => P e = false) a -> Forall (fun e => P e = false) b ->
  a ++ x :: b = pre ++ y :: post -> P y = true ->
  pre = a /\ y = x /\ post = b.
Proof.
  induction a as [|x0 a IH]; intros b x pre post y Ha Hb Heq Hy.
  - destruct pre as [|x' pre]; cbn in Heq.
    + now injection Heq as -> ->.
    + injection Heq as -> ->. destruct (no_occurrence _ _ _ _ Hb eq_refl Hy).
  - apply Forall_cons in Ha as [Hx0 Ha]. destruct pre as [|x' pre]; cbn in Heq.
    + injection Heq as -> _. congruence.
    + injection Heq as <- Heq.
      destruct (IH _ _ _ _ _ Ha Hb Heq Hy) as (-> & -> & ->). auto.
Qed.

Lemma filter_none (l : list E) :
  Forall (fun e => P e = false) l -> List.filter P l = [].
Proof.
  induction 1 as [|x l Hx _ IH]; [reflexivity|]. cbn. now rewrite Hx.
Qed.

Lemma filter_all (l : list E) :
  Forall (fun e => P e = true) l -> List.filter P l = l.
Proof.
  induction 1 as [|x l Hx _ IH]; [reflexivity|]. cbn. now rewrite Hx, IH.
Qed.

End TraceCuts.

(** ** The order of the calls of [seedDatabase] *)

Section OrderFacts.

Context {number vector : Type} {JN : JsNumber number} {SV : Services number vector}.

Notation World := (World number vector).
Notation Event := (Event number).
Notation Document := (Document number).

Lemma quiet_not_write (e : Event) : quiet e = true -> is_write e = false.
Proof. unfold quiet. now destruct (is_write e). Qed.

Lemma quiet_not_reset (e : Event) : quiet e = true -> is_reset e = false.
Proof. unfold quiet. destruct (is_reset e); [|easy]. now rewrite andb_false_r. Qed.

Lemma quiet_not_create (e : Event) :
  quiet e = true -> is_create_index e = false.
Proof.
  intros Hq%quiet_not_reset. unfold is_reset, is_create_index in *.
  now destruct (call e).
Qed.

Lemma quiet_not_failed_write (e : Event) :
  quiet e = true -> is_failed_write e = false.
Proof. intros Hq%quiet_not_write. unfold is_failed_write. now rewrite Hq. Qed.

Lemma index_events_facts (idx : list Event) :
  index_events idx ->
  Forall (fun e => is_write e = false) idx
  /\ Forall (fun e => is_failed_write e = false) idx
  /\ exists ok, In (dropped ok) idx.
Proof.
  intros [->|[->| ->]]; (split; [|split]);
    try (now repeat constructor); eexists; now left.
Qed.

Lemma wrote_all (Q : Event -> Prop) ok (docs : list Document) :
  (forall d, Q (wrote ok d)) -> Forall Q (map (wrote ok) docs).
Proof. intros HQ. apply Forall_map, Forall_forall. auto. Qed.

Lemma stopped_at_all (Q : Event -> Prop) (rest : list Document) :
  (forall d, Q (wrote false d)) -> Forall Q (stopped_at rest).
Proof. intros HQ. destruct rest; now repeat constructor. Qed.

Lemma seed_tail_no_create final ok (tail : list Event) :
  seed_tail (vector := vector) final ok tail ->
  Forall (fun e => is_create_index e = false) tail.
Proof.
  intros [|prompt Hfinal|prompt done rest Hmeta Hsum Hfinal];
    repeat constructor.
  apply Forall_app. split; [apply wrote_all|apply stopped_at_all]; easy.
Qed.

(** C4, as the code has it.  A failure of the index recreation is not
    fatal: [createVectorSearchIndex] catches it and returns normally
    whatever fails, a creation that fails after the drop leaves the
    collection without any index, and in every run of [seedDatabase] the
    call that follows a failed index creation is the clearing of the
    collection. *)
Theorem failed_index_creation_is_caught (w : World) :
  let w1 := snd (createVectorSearchIndex w) in
  fst (createVectorSearchIndex w) = Ok tt
  /\ (events_since w w1 = [dropped true; created false] -> indexes w1 = [])
  /\ forall pre post : list Event,
       events_since w (snd (seedDatabase w)) = pre ++ created false :: post ->
       exists ok post', post = cleared ok :: post'.
Proof.
  cbv zeta. split; [|split].
  - now destruct (wp_events_since _ _ _ (createVectorSearchIndex_spec w))
      as (Hr & _).
  - destruct (wp_events_since _ _ _ (createVectorSearchIndex_spec w))
      as (_ & _ & _ & [[-> _]|[[_ Hidx]|[-> _]]]); try discriminate.
    now intros _.
  - intros pre post Hcut.
    destruct (wp_events_since _ _ _ (seedDatabase_spec w)) as [_ Hrun].
    rewrite Hcut in Hrun. inversion Hrun as [q Hq|q idx ok tail Hq Hidx Htail Hnew].
    + apply Forall_app in Hq as [_ Hq]. apply Forall_cons in Hq as [Hq _].
      discriminate Hq.
    + assert (Hqc : Forall (fun e : Event => is_create_index e = false) q).
      { eapply Forall_impl; [exact Hq|]. apply quiet_not_create. }
      pose proof (seed_tail_no_create _ _ _ Htail) as Htc.
      destruct Hidx as [->|[->| ->]].
      * exfalso. eapply (no_occurrence is_create_index); [|exact Hnew|easy].
        rewrite !Forall_app. now repeat constructor.
      * change (q ++ [dropped true; created false] ++ cleared ok :: tail)
          with (q ++ [dropped true] ++ created false :: cleared ok :: tail)
          in Hnew.
        rewrite app_assoc in Hnew.
        apply (cut_unique is_create_index) in Hnew as (_ & _ & ->);
          [eauto| |now constructor|reflexivity].
        rewrite Forall_app. now repeat constructor.
      * change (q ++ [dropped true; created true] ++ cleared ok :: tail)
          with (q ++ [dropped true] ++ created true :: cleared ok :: tail)
          in Hnew.
        rewrite app_assoc in Hnew.
        apply (cut_unique is_create_index) in Hnew as (_ & Hev & _);
          [discriminate Hev|..]; try easy.
        -- rewrite Forall_app. now repeat constructor.
        -- now constructor.
Qed.

Lemma seed_tail_failed_write final ok (tail : list Event) :
  seed_tail (vector := vector) final ok tail ->
  Forall (fun e => is_failed_write e = false) tail
  \/ exists prompt done d rest,
       ok = true
       /\ tail = invoked prompt true :: map (wrote true) done ++ [wrote false d]
       /\ map metadata (done ++ d :: rest)
          = records_of (parser_parse (llm_content prompt))
       /\ Forall (summarised (vector := vector)) (done ++ d :: rest)
       /\ final = map stored done.
Proof.
  intros [|prompt Hfinal|prompt done [|d rest] Hmeta Hsum Hfinal].
  - left. constructor.
  - left. now repeat constructor.
  - left. constructor; [reflexivity|]. rewrite app_nil_r.
    now apply wrote_all.
  - right. exists prompt, done, d, rest. auto.
Qed.

(** C8. The writes of [seedDatabase] are made record by record.  In every
    run, when the write of a record fails, the run makes no further call,
    and the collection holds exactly the documents of the records before
    it, in their order, each one as its own write stored it: the summary
    compiled from the record, the embedding of that summary and the record
    itself. *)
Theorem seedDatabase_failed_write_keeps_earlier (w : World) :
  let w' := snd (seedDatabase w) in
  forall (pre post : list Event) (d : Document),
    events_since w w' = pre ++ wrote false d :: post ->
    exists prompt done rest,
      map metadata (done ++ d :: rest)
      = records_of (parser_parse (llm_content prompt))
      /\ Forall (summarised (vector := vector)) (done ++ d :: rest)
      /\ List.filter is_write pre = map (wrote true) done
      /\ documents w' = map stored done
      /\ post = [].
Proof.
  intros w' pre post d Hcut.
  destruct (wp_events_since _ _ _ (seedDatabase_spec w)) as [_ Hrun].
  fold w' in Hrun. rewrite Hcut in Hrun.
  inversion Hrun as [q Hq|q idx ok tail Hq Hidx Htail Hnew].
  { apply Forall_app in Hq as [_ Hq]. apply Forall_cons in Hq as [Hq _].
    discriminate Hq. }
  destruct (index_events_facts _ Hidx) as (Hiw & Hif & _).
  assert (Hqf : Forall (fun e : Event => is_failed_write e = false) q).
  { eapply Forall_impl; [exact Hq|]. apply quiet_not_failed_write. }
  assert (Hqw : Forall (fun e : Event => is_write e = false) q).
  { eapply Forall_impl; [exact Hq|]. apply quiet_not_write. }
  destruct (seed_tail_failed_write _ _ _ Htail)
    as [Hnone|(prompt & done & d0 & rest & -> & -> & Hmeta & Hsum & Hfinal)].
  { exfalso. eapply (no_occurrence is_failed_write); [|exact Hnew|easy].
    rewrite !Forall_app. split; [assumption|]. split; [assumption|].
    now constructor. }
  assert (Hre : q ++ idx ++ cleared true :: invoked prompt true
                  :: map (wrote true) done ++ [wrote false d0]
                = (q ++ idx ++ cleared true :: invoked prompt true
                     :: map (wrote true) done) ++ wrote false d0 :: []).
  { now rewrite <- !app_assoc. }
  rewrite Hre in Hnew.
  apply (cut_unique is_failed_write) in Hnew as (-> & Hd & ->);
    [| |constructor|reflexivity].
  2: { rewrite !Forall_app. split; [assumption|]. split; [assumption|].
       do 2 (constructor; [reflexivity|]). now apply wrote_all. }
  injection Hd as ->.
  exists prompt, done, rest. repeat split; try assumption.
  rewrite !List.filter_app.
  rewrite (filter_none _ _ Hqw), (filter_none _ _ Hiw). cbn.
  apply filter_all. now apply wrote_all.
Qed.

End OrderFacts.

(** ** Index recreation and generation, as a whole *)

Section RecreationFacts.

Context {number vector : Type} {JN : JsNumber number} {SV : Services number vector}.

Notation World := (World number vector).
Notation Event := (Event number).

(** C6. Index recreation is drop-then-create and idempotent.  Every run
    of [createVectorSearchIndex] first calls the drop of the indexes and,
    once the drop has succeeded, the creation of the search index named
    "vector_index" with cosine similarity and 768 dimensions.  When both
    calls succeed the collection has that index and no other, whatever it
    had before, so a second run gives the same indexes again. *)
Theorem createVectorSearchIndex_idempotent (w : World) :
  let w1 := snd (createVectorSearchIndex w) in
  let w2 := snd (createVectorSearchIndex w1) in
  (name vector_index = "vector_index"
   /\ map similarity (definition vector_index) = ["cosine"]
   /\ map numdimensions (definition vector_index) = [768])
  /\ (events_since w w1 = [dropped false]
      \/ exists ok, events_since w w1 = [dropped true; created ok])
  /\ (events_since w w1 = [dropped true; created true] ->
      indexes w1 = [vector_index])
  /\ (events_since w w1 = [dropped true; created true] ->
      events_since w1 w2 = [dropped true; created true] ->
      indexes w2 = indexes w1).
Proof.
  intros w1 w2. split; [now repeat split|].
  destruct (wp_events_since _ _ _ (createVectorSearchIndex_spec w))
    as (_ & _ & _ & Hcases). fold w1 in Hcases.
  destruct (wp_events_since _ _ _ (createVectorSearchIndex_spec w1))
    as (_ & _ & _ & Hcases2). fold w2 in Hcases2.
  split; [|split].
  - destruct Hcases as [[-> _]|[[-> _]|[-> _]]]; eauto.
  - destruct Hcases as [[-> _]|[[-> _]|[_ ->]]]; try discriminate.
    reflexivity.
  - destruct Hcases as [[-> _]|[[-> _]|[_ ->]]]; try discriminate.
    destruct Hcases2 as [[-> _]|[[-> _]|[_ ->]]]; try discriminate.
    reflexivity.
Qed.

(** C3, as the code has it.  [generateSyntheticData] makes one call to
    the model.  When that call returns, the function never raises: it
    returns the records of the parser, and the empty list when the parser
    rejects the output or yields nothing.  When the call to the model
    fails, its error is raised to the caller. *)
Theorem generateSyntheticData_degrades_on_parse_failure (w : World) :
  let r := fst (generateSyntheticData w) in
  let new := events_since w (snd (generateSyntheticData w)) in
  exists prompt,
    (new = [invoked prompt true]
     /\ match parser_parse (llm_content prompt) with
        | Ok (ParsedArray items) => r = Ok items
        | Ok (ParsedObject item) => r = Ok [item]
        | Ok ParsedFalsy => r = Ok []
        | Throw _ => r = Ok []
        end)
    \/ (exists e, new = [invoked prompt false]
                  /\ fault (trace w) (CLlmInvoke prompt) = Some e
                  /\ r = Throw e).
Proof.
  destruct generateSyntheticData_spec as [prompt Hgen].
  intros r new. exists prompt.
  destruct (wp_events_since _ _ _ (Hgen w))
    as (_ & _ & _ & [(e & He & Hr & Hnew)|(Hnone & Hr & Hnew)]);
    fold r in Hr; fold new in Hnew.
  - right. eauto.
  - left. split; [exact Hnew|]. rewrite Hr.
    now destruct (parser_parse (llm_content prompt)) as [[items|item|]|e].
Qed.

End RecreationFacts.

(** ** The summary compiler *)

Section SummaryFacts.

Context {number vector : Type} {JN : JsNumber number}.

Notation World := (World number vector).

(** C9. The summary compiler is pure and deterministic: for every record
    there is one summary that [createItemSummary] returns in every world,
    and the run makes no call, prints nothing and changes nothing.  The
    function does not even take the outside services. *)
Theorem createItemSummary_pure (item : Item number) :
  exists summary : string, forall w : World,
    createItemSummary item w = (Ok summary, w).
Proof. apply createItemSummary_returns. Qed.

Lemma string_app_nil_r (s : string) : s +:+ "" = s.
Proof.
  induction s as [|c s IH]; [reflexivity|].
  rewrite string_app_cons. now rewrite IH.
Qed.

Lemma InOrder_here p ps rest : InOrder ps rest -> InOrder (p :: ps) (p +:+ rest).
Proof. intros Hrest. apply (InOrder_cons p ps "" rest Hrest). Qed.

Lemma InOrder_single p : InOrder [p] p.
Proof.
  rewrite <- (string_app_nil_r p) at 2. apply InOrder_here. constructor.
Qed.

Lemma InOrder_app ps1 ps2 s1 s2 :
  InOrder ps1 s1 -> InOrder ps2 s2 -> InOrder (ps1 ++ ps2) (s1 +:+ s2).
Proof.
  intros H1 H2. induction H1 as [s|p ps pre rest Hrest IH].
  - now apply InOrder_prepend.
  - rewrite !string_app_assoc. cbn [app]. now constructor.
Qed.

(** The strings that [join] puts together occur in the result in their
    order. *)
Lemma InOrder_concat sep (xs : list string) :
  InOrder xs (String.concat sep xs).
Proof.
  induction xs as [|x xs IH]; [constructor|].
  destruct xs as [|y xs]; [apply InOrder_single|].
  change (String.concat sep (x :: y :: xs))
    with (x +:+ sep +:+ String.concat sep (y :: xs)).
  apply InOrder_here. now apply InOrder_prepend.
Qed.

(** C5, as the code has it.  The summary puts the sentences in a fixed
    order: the description and the brand first, then the provenance, the
    categories joined by commas, the reviews, the two prices and the
    notes. *)
Theorem createItemSummary_field_order (item : Item number) (w : World) :
  exists summary,
    fst (createItemSummary item w) = Ok summary
    /\ InOrder (sentences code_order item) summary.
Proof.
  eexists. split; [reflexivity|].
  unfold sentences, code_order. cbn [flat_map].
  apply InOrder_app.
  { cbn [sentence]. do 2 apply InOrder_prepend. apply InOrder_here.
    apply InOrder_prepend. apply InOrder_single. }
  apply InOrder_prepend. apply InOrder_app; [apply InOrder_single|].
  do 3 apply InOrder_prepend. apply InOrder_app; [apply InOrder_single|].
  apply InOrder_prepend. apply InOrder_app; [apply InOrder_concat|].
  apply InOrder_prepend. apply InOrder_app.
  { cbn [sentence]. apply InOrder_prepend. apply InOrder_here.
    do 3 apply InOrder_prepend. apply InOrder_here. constructor. }
  apply InOrder_prepend. cbn [sentence app]. apply InOrder_single.
Qed.

End SummaryFacts.

(** ** The chat routes *)

(** C1. On [/chat/:threadId] the reply of the agent is sent as
    [{response: <reply>}], and a failure of the agent gives status 500 with
    a generic error body on both routes.  On [/chat], however, the handler
    sends nothing at all when the agent returns: the reply is computed and
    dropped, and the request is left without a response. *)
Theorem post_chat_sends_no_reply
    (callAgent : string -> string -> Result string) (now : Z)
    (req : Server.Request) :
  let failure :=
    {| Server.statusCode := 500;
       Server.sent := Some [("error", "Internal server error")] |} in
  match callAgent (Server.body_message req) (numberToString now) with
  | Ok reply =>
      Server.sent (Server.res (Server.post_chat callAgent now req)) = None
  | Throw _ => Server.res (Server.post_chat callAgent now req) = failure
  end
  /\ match callAgent (Server.body_message req) (Server.params_threadId req) with
     | Ok reply =>
         Server.res (Server.post_chat_threadId callAgent req)
         = {| Server.statusCode := 200;
              Server.sent := Some [("response", reply)] |}
     | Throw _ => Server.res (Server.post_chat_threadId callAgent req) = failure
     end.
Proof.
  cbv zeta. unfold Server.post_chat, Server.post_chat_threadId. split.
  - now destruct (callAgent _ (numberToString now)).
  - now destruct (callAgent _ (Server.params_threadId req)).
Qed.

(** ** The example record *)

(** C2. The summary of the example record has "Made in USA",
    "chairs,oak", "Rated 5 on 2024-01-01: sturdy", "$120" and "limited
    edition", but not "$90": the sale price is written without the dollar
    sign that the full price gets, as "Onsale it costs 90 USD". *)
Theorem oakChair_summary_substrings :
  exists summary,
    fst (createItemSummary oakChair empty_world) = Ok summary
    /\ includes summary "Made in USA" = true
    /\ includes summary "chairs,oak" = true
    /\ includes summary "Rated 5 on 2024-01-01: sturdy" = true
    /\ includes summary "$120" = true
    /\ includes summary "limited edition" = true
    /\ includes summary "$90" = false
    /\ includes summary "Onsale it costs 90 USD" = true.
Proof. eexists. split; [reflexivity|]. vm_compute. now repeat split. Qed.

(** The order of the specification fails on the example record: after the
    review there is no description left to find. *)
Lemma oakChair_summary_not_in_spec_order :
  exists summary,
    fst (createItemSummary oakChair empty_world) = Ok summary
    /\ ~ InOrder (sentences spec_order oakChair) summary.
Proof.
  eexists. split; [reflexivity|].
  intros Hin%in_order_spec. vm_compute in Hin. discriminate Hin.
Qed.

(** ** Runs on the two records *)

(** When the model cannot be reached, [generateSyntheticData] raises: it
    does not return the empty list. *)
Lemma generateSyntheticData_raises_when_model_fails :
  fst (generateSyntheticData (SV := two_records model_down) empty_world)
  = Throw {| message := "model unavailable" |}
  /\ fst (generateSyntheticData (SV := two_records model_down) empty_world)
     <> Ok [].
Proof. split; [reflexivity|discriminate]. Qed.

(** When the index cannot be created, [seedDatabase] clears the collection
    and writes the documents all the same, into a collection without an
    index. *)
Lemma seedDatabase_goes_on_after_failed_index_creation :
  outline (seeding index_down)
  = [("connect", true); ("command", true); ("listCollections", true);
     ("createCollection", true); ("dropIndexes", true);
     ("createSearchIndex", false); ("deleteMany", true); ("invoke", true);
     ("fromDocuments", true); ("fromDocuments", true)]
  /\ indexes (seeded index_down) = []
  /\ map record (documents (seeded index_down)) = [oakChair; pineDesk].
Proof. vm_compute. now repeat split. Qed.

Lemma failed_index_creation_is_caught_witness :
  let w1 := snd (createVectorSearchIndex (SV := two_records index_down)
                   empty_world) in
  (events_since empty_world w1 = [dropped true; created false]
   /\ indexes w1 = [])
  /\ (seeding index_down
      = take 5 (seeding index_down) ++ created false
          :: drop 6 (seeding index_down)
      /\ exists ok post', drop 6 (seeding index_down) = cleared ok :: post').
Proof.
  cbv zeta.
  destruct (failed_index_creation_is_caught
              (SV := two_records index_down) empty_world)
    as (_ & Hindexes & Hnext).
  split.
  - split; [vm_compute; reflexivity|].
    apply Hindexes. vm_compute. reflexivity.
  - split; [vm_compute; reflexivity|].
    apply (Hnext (take 5 (seeding index_down))). vm_compute. reflexivity.
Defined.

Lemma createVectorSearchIndex_idempotent_witness :
  let w1 := snd (createVectorSearchIndex (SV := two_records no_fault)
                   empty_world) in
  let w2 := snd (createVectorSearchIndex (SV := two_records no_fault) w1) in
  events_since empty_world w1 = [dropped true; created true]
  /\ events_since w1 w2 = [dropped true; created true]
  /\ indexes w1 = [vector_index]
  /\ indexes w2 = indexes w1.
Proof.
  cbv zeta.
  destruct (createVectorSearchIndex_idempotent
              (SV := two_records no_fault) empty_world)
    as (_ & _ & Hone & Htwo).
  split; [vm_compute; reflexivity|]. split; [vm_compute; reflexivity|].
  split.
  - apply Hone. vm_compute. reflexivity.
  - apply Htwo; vm_compute; reflexivity.
Defined.

Lemma seedDatabase_failed_write_keeps_earlier_witness :
  seeding second_write_fails
  = take 9 (seeding second_write_fails)
      ++ wrote false (document_of pineDesk) :: []
  /\ exists done,
       List.filter is_write (take 9 (seeding second_write_fails))
       = map (wrote true) done
       /\ documents (seeded second_write_fails)
          = map (stored (SV := two_records second_write_fails)) done.
Proof.
  split; [vm_compute; reflexivity|].
  destruct (seedDatabase_failed_write_keeps_earlier
              (SV := two_records second_write_fails) empty_world
              (take 9 (seeding second_write_fails)) []
              (document_of pineDesk))
    as (prompt & done & rest & _ & _ & Hwritten & Hkept & _);
    [vm_compute; reflexivity|].
  exists done. split; assumption.
Defined.

Lemma setupDatabaseAndCollection_idempotent_witness :
  let w1 := snd (setupDatabaseAndCollection (SV := two_records no_fault)
                   empty_world) in
  let w2 := snd (setupDatabaseAndCollection (SV := two_records no_fault) w1) in
  fst (setupDatabaseAndCollection (SV := two_records no_fault) empty_world)
  = Ok tt
  /\ "items" ∈ collections w1
  /\ collections w2 = collections w1.
Proof.
  cbv zeta. split; [vm_compute; reflexivity|].
  destruct (setupDatabaseAndCollection_idempotent
              (SV := two_records no_fault) empty_world)
    as (_ & Hitems & Hsame & _); [vm_compute; reflexivity|].
  split; assumption.
Defined.

(** * Further properties of the code *)

(** ** The seeding script, call by call *)

Section OutcomeFacts.

Context {number vector : Type} {JN : JsNumber number}
  {SV : Services number vector}.

Notation World := (World number vector).
Notation Event := (Event number).
Notation Document := (Document number).

Lemma setupDatabaseAndCollection_exact (w : World) :
  wp setupDatabaseAndCollection
    (fun r new w' =>
       indexes w' = indexes w /\ documents w' = documents w
       /\ ((r = Ok tt /\ setup_done (collections w) (collections w') new)
           \/ ((exists e, r = Throw e)
               /\ collections w' = collections w
               /\ setup_failed (collections w) new))) w.
Proof.
  unfold setupDatabaseAndCollection, db_listCollections, db_createCollection.
  wp_steps.
  - do 2 (split; [reflexivity|]). right.
    split; [eauto|]. split; [reflexivity|constructor].
  - destruct (decide ("items" ∈ collections w)) as [Hin|Hnotin];
      cbn [length Nat.eqb]; wp_steps; (do 2 (split; [reflexivity|])).
    + left. split; [reflexivity|]. now constructor.
    + right. split; [eauto|]. split; [reflexivity|]. now constructor.
    + left. split; [reflexivity|]. now constructor.
Qed.

Lemma createVectorSearchIndex_exact (w : World) :
  wp createVectorSearchIndex
    (fun r new w' =>
       r = Ok tt
       /\ collections w' = collections w /\ documents w' = documents w
       /\ index_done (indexes w) (indexes w') new) w.
Proof.
  eapply wp_conseq; [apply createVectorSearchIndex_spec|].
  intros r new w' (Hr & Hc & Hd & Hcases). do 3 (split; [assumption|]).
  destruct Hcases as [[-> ->]|[[-> ->]|[-> ->]]]; constructor.
Qed.

(** The outcome of a run depends on the final world through its store
    only. *)
Lemma seed_outcome_store (w w1 w2 : World) (new : list Event) :
  same_store w1 w2 -> seed_outcome w w1 new -> seed_outcome w w2 new.
Proof.
  intros (Hc & Hi & Hd) Hrun.
  destruct Hrun; econstructor; unfold same_store in *;
    rewrite ?Hc, ?Hi, ?Hd; intuition (eauto; congruence).
Qed.

(** Every run of [seedDatabase] is one of the outcomes. *)
Lemma seedDatabase_outcome (w : World) :
  wp seedDatabase (fun r new w' => r = Ok tt /\ seed_outcome w w' new) w.
Proof.
  destruct generateSyntheticData_spec as [prompt Hgen].
  unfold seedDatabase. apply wp_try_catch.
  eapply wp_conseq with (Q := fun r new w' => seed_outcome w w' new).
  2: { intros [[]|e] new w' Hrun; [now split|].
       wp_steps. rewrite app_nil_r. split; [reflexivity|].
       eapply seed_outcome_store; [|exact Hrun]. now repeat split. }
  unfold client_connect, admin_ping, collection_deleteMany.
  wp_steps.
  - apply stop_at_connect. now repeat split.
  - apply stop_at_ping. now repeat split.
  - eapply wp_conseq; [apply setupDatabaseAndCollection_exact|].
    intros r n w1 (Hi1 & Hd1 & Hsetup). wp_simpl_in Hi1. wp_simpl_in Hd1.
    wp_simpl_in Hsetup.
    destruct Hsetup as [[-> Hsetup]|([e ->] & Hc1 & Hsetup)]; wp_simpl.
    2: { apply stop_at_setup; [assumption|]. now repeat split. }
    wp_step. eapply wp_conseq; [apply createVectorSearchIndex_exact|].
    intros r idx w2 (-> & Hc2 & Hd2 & Hidx).
    rewrite Hi1 in Hidx. rewrite <- Hc2 in Hsetup. rewrite Hd1 in Hd2.
    wp_steps.
    + now apply stop_at_clear.
    + eapply wp_conseq; [apply Hgen|].
      intros r n_gen w3 (Hc3 & Hi3 & Hd3 & Hcases).
      wp_simpl_in Hc3. wp_simpl_in Hi3. wp_simpl_in Hd3.
      rewrite <- Hc3 in Hsetup. rewrite <- Hi3 in Hidx.
      destruct Hcases as [(e & _ & -> & ->)|(_ & -> & ->)]; wp_simpl.
      * now apply stop_at_model.
      * wp_step.
        destruct (Promise_all_summaries
                    (records_of (parser_parse (llm_content prompt))) w3)
          as (docs & Hall & Hmeta & Hsum).
        eapply wp_pure; [exact Hall|]. wp_simpl.
        eapply wp_conseq; [apply write_loop_spec|].
        intros r n_loop w4 (Hc4 & Hi4 & done & rest & -> & Hfinal & -> & _).
        rewrite Hd3 in Hfinal. cbn [app] in Hfinal.
        rewrite <- Hc4 in Hsetup. rewrite <- Hi4 in Hidx.
        now apply ran_writes.
Qed.

End OutcomeFacts.

(** Membership in the traces of the outcomes. *)
Ltac in_trace :=
  repeat progress (cbn [In]; rewrite ?in_app_iff); intuition.

Section OutcomeTheorems.

Context {number vector : Type} {JN : JsNumber number}
  {SV : Services number vector}.

Notation World := (World number vector).
Notation Event := (Event number).
Notation Document := (Document number).

Lemma failed_event_in (l : list Event) (e : Event) :
  In e l -> succeeded e = false ->
  Forall (fun e' => succeeded e' = true) l -> False.
Proof.
  intros Hin He Hall. rewrite Forall_forall in Hall.
  apply list_elem_of_In in Hin. specialize (Hall e Hin). congruence.
Qed.

(** X1. [seedDatabase] never raises: every error of a call it makes is
    caught and printed. *)
Theorem seedDatabase_never_raises (w : World) :
  fst (seedDatabase w) = Ok tt.
Proof.
  pose proof (wp_events_since _ _ _ (seedDatabase_outcome w)) as Hrun.
  cbv beta in Hrun. destruct Hrun as [Hreturns _]. exact Hreturns.
Qed.

(** X2. When every call of a run of [seedDatabase] succeeds, the database
    has the collection 'items' with the vector index as its only index,
    and the collection holds exactly one document for each record of the
    parser, in their order, whatever it held before: the text is the
    summary of the record, next to its embedding and the record. *)
Theorem seedDatabase_successful_run (w : World) :
  let w' := snd (seedDatabase w) in
  Forall (fun e => succeeded e = true) (events_since w w') ->
  "items" ∈ collections w'
  /\ indexes w' = [vector_index]
  /\ exists prompt docs,
       map metadata docs = records_of (parser_parse (llm_content prompt))
       /\ Forall (summarised (vector := vector)) docs
       /\ documents w' = map stored docs
       /\ List.filter is_write (events_since w w') = map (wrote true) docs.
Proof.
  intros w' Hall.
  destruct (wp_events_since _ _ _ (seedDatabase_outcome w)) as [_ Hrun].
  fold w' in Hrun.
  destruct Hrun as [Hs|Hs|n Hn Hs|n idx Hn Hidx Hd|n idx prompt Hn Hidx Hd
                    |n idx prompt done rest Hn Hidx Hmeta Hsum Hd].
  - exfalso. apply (failed_event_in _ (connected false)) in Hall; [easy|..];
      [in_trace|reflexivity].
  - exfalso. apply (failed_event_in _ (pinged false)) in Hall; [easy|..];
      [in_trace|reflexivity].
  - exfalso. revert Hall. destruct Hn; intros Hall.
    + apply (failed_event_in _ (listed false)) in Hall; [easy|..];
        [in_trace|reflexivity].
    + apply (failed_event_in _ (made false)) in Hall; [easy|..];
        [in_trace|reflexivity].
  - exfalso. apply (failed_event_in _ (cleared false)) in Hall; [easy|..];
      [in_trace|reflexivity].
  - exfalso.
    apply (failed_event_in _ (invoked prompt false)) in Hall; [easy|..];
      [in_trace|reflexivity].
  - destruct rest as [|d rest].
    2: { exfalso. apply (failed_event_in _ (wrote false d)) in Hall;
           [easy|..]; [cbn [stopped_at]; in_trace|reflexivity]. }
    rewrite app_nil_r in Hmeta, Hsum. cbn [stopped_at] in *.
    rewrite app_nil_r in *.
    split; [|split].
    + destruct Hn; [assumption|set_solver].
    + revert Hall. destruct Hidx; intros Hall; [| |reflexivity]; exfalso.
      * apply (failed_event_in _ (dropped false)) in Hall; [easy|..];
          [in_trace|reflexivity].
      * apply (failed_event_in _ (created false)) in Hall; [easy|..];
          [in_trace|reflexivity].
    + exists prompt, done. do 3 (split; [assumption|]).
      change (connected true :: pinged true
                :: n ++ idx ++ cleared true :: invoked prompt true
                :: map (wrote true) done)
        with ([connected true; pinged true] ++ n ++ idx
                ++ [cleared true; invoked prompt true]
                ++ map (wrote true) done).
      rewrite !List.filter_app.
      assert (Hqn : List.filter is_write n = []) by now destruct Hn.
      assert (Hqi : List.filter is_write idx = []) by now destruct Hidx.
      rewrite Hqn, Hqi. cbn [List.filter is_write call app].
      apply filter_all. now apply wrote_all.
Qed.

(** X3. After a run of [seedDatabase] the collection holds either only
    documents that this run has written, each with the summary of its
    record as text (when the run has cleared the collection), or exactly
    the documents it held before (when it has not): old and new documents
    are never mixed. *)
Theorem seedDatabase_documents_old_or_new (w : World) :
  let w' := snd (seedDatabase w) in
  (In (cleared true) (events_since w w')
   /\ exists done,
        Forall (summarised (vector := vector)) done
        /\ documents w' = map stored done)
  \/ (~ In (cleared true) (events_since w w')
      /\ documents w' = documents w).
Proof.
  intros w'.
  destruct (wp_events_since _ _ _ (seedDatabase_outcome w)) as [_ Hrun].
  fold w' in Hrun.
  destruct Hrun as [Hs|Hs|n Hn Hs|n idx Hn Hidx Hd|n idx prompt Hn Hidx Hd
                    |n idx prompt done rest Hn Hidx Hmeta Hsum Hd].
  - right. split; [|apply Hs]. cbn [In]. intuition discriminate.
  - right. split; [|apply Hs]. cbn [In]. intuition discriminate.
  - right. split; [|apply Hs]. destruct Hn; cbn [In]; intuition discriminate.
  - right. split; [|exact Hd].
    destruct Hn, Hidx; cbn [In app]; intuition discriminate.
  - left. split; [in_trace|]. exists []. split; [constructor|exact Hd].
  - left. split; [in_trace|]. exists done. split; [|exact Hd].
    now apply Forall_app in Hsum as [Hsum _].
Qed.

Lemma setup_events_no_invoke before after (n : list Event) :
  setup_done before after n -> Forall (fun e => is_invoke e = false) n.
Proof. intros []; now repeat constructor. Qed.

Lemma index_events_no_invoke before after (idx : list Event) :
  index_done before after idx -> Forall (fun e => is_invoke e = false) idx.
Proof. intros []; now repeat constructor. Qed.

(** X4. [seedDatabase] calls the generative model at most once, and only
    after it has cleared the collection: before the call there is a
    clearing that succeeded and no other call to the model, and every call
    after it is a write of a document.  A call to the model that fails is
    the last call of the run: there is no second attempt. *)
Theorem seedDatabase_one_model_call (w : World) :
  forall (pre post : list Event) (e : Event),
    events_since w (snd (seedDatabase w)) = pre ++ e :: post ->
    is_invoke e = true ->
    In (cleared true) pre
    /\ Forall (fun e' => is_invoke e' = false) pre
    /\ Forall (fun e' => is_write e' = true) post
    /\ (succeeded e = false -> post = []).
Proof.
  intros pre post e Hcut He.
  destruct (wp_events_since _ _ _ (seedDatabase_outcome w)) as [_ Hrun].
  rewrite Hcut in Hrun.
  inversion Hrun as [Hs Hnew|Hs Hnew|n Hn Hs Hnew|n idx Hn Hidx Hd Hnew
                     |n idx prompt Hn Hidx Hd Hnew
                     |n idx prompt done rest Hn Hidx Hmeta Hsum Hd Hnew].
  - exfalso. eapply (no_occurrence is_invoke); [|exact Hnew|exact He].
    now repeat constructor.
  - exfalso. eapply (no_occurrence is_invoke); [|exact Hnew|exact He].
    now repeat constructor.
  - exfalso. eapply (no_occurrence is_invoke); [|exact Hnew|exact He].
    destruct Hn; now repeat constructor.
  - exfalso. eapply (no_occurrence is_invoke); [|exact Hnew|exact He].
    do 2 (constructor; [reflexivity|]). rewrite !Forall_app.
    split; [eapply setup_events_no_invoke; eassumption|].
    split; [eapply index_events_no_invoke; eassumption|].
    now repeat constructor.
  - assert (Hbefore : Forall (fun e' : Event => is_invoke e' = false)
                        ([connected true; pinged true] ++ n ++ idx
                           ++ [cleared true])).
    { rewrite !Forall_app. split; [now repeat constructor|].
      split; [eapply setup_events_no_invoke; eassumption|].
      split; [eapply index_events_no_invoke; eassumption|].
      now repeat constructor. }
    assert (Hre : connected true :: pinged true
                    :: n ++ idx ++ [cleared true; invoked prompt false]
                  = ([connected true; pinged true] ++ n ++ idx
                       ++ [cleared true]) ++ invoked prompt false :: []).
    { cbn [app]. now rewrite <- !app_assoc. }
    rewrite Hre in Hnew.
    apply (cut_unique is_invoke) in Hnew as (-> & -> & ->);
      [|assumption|constructor|exact He].
    split; [in_trace|]. split; [assumption|]. split; [constructor|easy].
  - assert (Hbefore : Forall (fun e' : Event => is_invoke e' = false)
                        ([connected true; pinged true] ++ n ++ idx
                           ++ [cleared true])).
    { rewrite !Forall_app. split; [now repeat constructor|].
      split; [eapply setup_events_no_invoke; eassumption|].
      split; [eapply index_events_no_invoke; eassumption|].
      now repeat constructor. }
    assert (Hre : connected true :: pinged true
                    :: n ++ idx ++ cleared true :: invoked prompt true
                    :: map (wrote true) done ++ stopped_at rest
                  = ([connected true; pinged true] ++ n ++ idx
                       ++ [cleared true])
                      ++ invoked prompt true
                      :: (map (wrote true) done ++ stopped_at rest)).
    { cbn [app]. now rewrite <- !app_assoc. }
    rewrite Hre in Hnew.
    apply (cut_unique is_invoke) in Hnew as (-> & -> & ->);
      [|assumption| |exact He].
    + split; [in_trace|]. split; [assumption|]. split; [|discriminate].
      apply Forall_app. split; [apply wrote_all|apply stopped_at_all]; easy.
    + apply Forall_app. split; [apply wrote_all|apply stopped_at_all]; easy.
Qed.

(** X5. A run of [seedDatabase] never removes a collection and adds none
    but 'items', and that only when it was missing; the indexes of the
    collection are afterwards the ones it had, none at all, or the vector
    index alone. *)
Theorem seedDatabase_store_frame (w : World) :
  let w' := snd (seedDatabase w) in
  (collections w' = collections w
   \/ (("items" ∉ collections w)
       /\ collections w' = {[ "items" ]} ∪ collections w))
  /\ (indexes w' = indexes w
      \/ indexes w' = []
      \/ indexes w' = [vector_index]).
Proof.
  intros w'.
  destruct (wp_events_since _ _ _ (seedDatabase_outcome w)) as [_ Hrun].
  fold w' in Hrun.
  assert (Hsetup : forall n : list Event,
             setup_done (collections w) (collections w') n ->
             collections w' = collections w
             \/ (("items" ∉ collections w)
                 /\ collections w' = {[ "items" ]} ∪ collections w)).
  { intros n Hn. inversion Hn; [now left|now right]. }
  assert (Hindex : forall idx : list Event,
             index_done (indexes w) (indexes w') idx ->
             indexes w' = indexes w \/ indexes w' = []
             \/ indexes w' = [vector_index]).
  { intros idx Hidx. inversion Hidx; auto. }
  destruct Hrun as [Hs|Hs|n Hn Hs|n idx Hn Hidx Hd|n idx prompt Hn Hidx Hd
                    |n idx prompt done rest Hn Hidx Hmeta Hsum Hd];
    try (destruct Hs as (Hc & Hi & _); now auto); eauto.
Qed.

(** X6. Whatever fails, [createVectorSearchIndex] changes neither the
    collections nor the documents.  When the drop fails it does not try to
    create the index and the indexes stay as they were; when the creation
    fails after the drop the collection has no index; otherwise it has the
    vector index alone. *)
Theorem createVectorSearchIndex_outcomes (w : World) :
  let w' := snd (createVectorSearchIndex w) in
  collections w' = collections w
  /\ documents w' = documents w
  /\ index_done (indexes w) (indexes w') (events_since w w').
Proof.
  intros w'.
  now destruct (wp_events_since _ _ _ (createVectorSearchIndex_exact w))
    as (_ & Hc & Hd & Hidx).
Qed.

(** X7. [setupDatabaseAndCollection] raises exactly when one of its two
    calls fails, and then the collections are as before; when it returns,
    'items' was either found or made.  It never changes the indexes or
    the documents, and it does not try to create a collection that the
    listing has found. *)
Theorem setupDatabaseAndCollection_outcomes (w : World) :
  let r := fst (setupDatabaseAndCollection w) in
  let w' := snd (setupDatabaseAndCollection w) in
  indexes w' = indexes w
  /\ documents w' = documents w
  /\ ((r = Ok tt
       /\ setup_done (collections w) (collections w') (events_since w w'))
      \/ ((exists e, r = Throw e)
          /\ collections w' = collections w
          /\ setup_failed (collections w) (events_since w w'))).
Proof.
  intros r w'.
  exact (wp_events_since _ _ _ (setupDatabaseAndCollection_exact w)).
Qed.

(** X8. [generateSyntheticData] reads and writes nothing of the database:
    the collections, the indexes and the documents are after it what they
    were before, whether it returns or raises. *)
Theorem generateSyntheticData_leaves_store (w : World) :
  same_store w (snd (generateSyntheticData w)).
Proof.
  destruct generateSyntheticData_spec as [prompt Hgen].
  destruct (wp_events_since _ _ _ (Hgen w)) as (Hc & Hi & Hd & _).
  now repeat split.
Qed.

End OutcomeTheorems.

(** ** The text of a summary *)

Section SummaryText.

Context {number vector : Type} {JN : JsNumber number}.

Notation World := (World number vector).

Lemma includes_mid (pre p post : string) :
  includes (pre +:+ p +:+ post) p = true.
Proof. apply includes_spec. eauto. Qed.

Lemma includes_cut (s pre p post : string) :
  s = pre +:+ p +:+ post -> includes s p = true.
Proof. intros ->. apply includes_mid. Qed.

Lemma includes_after (x s p : string) :
  includes s p = true -> includes (x +:+ s) p = true.
Proof.
  rewrite !includes_spec. intros (pre & post & ->).
  exists (x +:+ pre), post. now rewrite string_app_assoc.
Qed.

Lemma includes_before (s x p : string) :
  includes s p = true -> includes (s +:+ x) p = true.
Proof.
  rewrite !includes_spec. intros (pre & post & ->).
  exists pre, (post +:+ x). now rewrite !string_app_assoc.
Qed.

(** Strings that occur in order occur. *)
Lemma InOrder_includes (ps : list string) (s p : string) :
  InOrder ps s -> In p ps -> includes s p = true.
Proof.
  induction 1 as [s|p0 ps pre rest Hrest IH]; intros Hin; [destruct Hin|].
  destruct Hin as [->|Hin]; [apply includes_mid|].
  now apply includes_after, includes_after, IH.
Qed.

Lemma InOrder_concat_map {A} sep (f : A -> list string) (g : A -> string)
    (xs : list A) :
  (forall x, InOrder (f x) (g x)) ->
  InOrder (flat_map f xs) (String.concat sep (map g xs)).
Proof.
  intros Hfg. induction xs as [|x xs IH]; [constructor|].
  destruct xs as [|y xs].
  - cbn [flat_map map String.concat]. rewrite app_nil_r. apply Hfg.
  - change (String.concat sep (map g (x :: y :: xs)))
      with (g x +:+ sep +:+ String.concat sep (map g (y :: xs))).
    change (flat_map f (x :: y :: xs))
      with (f x ++ flat_map f (y :: xs)).
    apply InOrder_app; [apply Hfg|]. now apply InOrder_prepend.
Qed.

(** The text that [createItemSummary] resolves to, written out. *)
Ltac summary_text :=
  cbv beta zeta iota delta [createItemSummary new_Promise ret fst].

(** X9. The identifier of a record and the street, city, state and
    postal code of its manufacturer never reach the summary: two records
    that agree on all the other fields have the same summary. *)
Theorem createItemSummary_ignores_unembedded (a b : Item number) (w : World) :
  same_embedded_fields a b ->
  createItemSummary a w = createItemSummary b w.
Proof.
  intros (Hname & Hdesc & Hbrand & Hcountry & Hprices & Hcats & Hrev & Hnotes).
  unfold createItemSummary, new_Promise. cbv zeta.
  now rewrite Hname, Hdesc, Hbrand, Hcountry, Hprices, Hcats, Hrev, Hnotes.
Qed.

(** X10. A summary is never empty: next to the texts of the record it
    has 144 characters of fixed wording, also when every field of the
    record is empty. *)
Theorem createItemSummary_length (item : Item number) (w : World) :
  exists summary,
    fst (createItemSummary item w) = Ok summary
    /\ String.length summary
       = (144
          + String.length (item_name item)
          + String.length (item_description item)
          + String.length (brand item)
          + String.length (country (manufacturer_address item))
          + String.length (String.concat "," (categories item))
          + String.length
              (String.concat " "
                 (map (fun review =>
                         "Rated " +:+ numberToString (rating review)
                         +:+ " on " +:+ review_date review +:+ ": "
                         +:+ comment review)
                      (user_reviews item)))
          + String.length (numberToString (full_price (prices item)))
          + String.length (numberToString (sale_price (prices item)))
          + String.length (notes item))%nat
    /\ (144 <= String.length summary)%nat.
Proof.
  summary_text. eexists. split; [reflexivity|].
  match goal with
  | |- ?len = ?rhs /\ _ => assert (Heq : len = rhs)
  end.
  { rewrite !string_length_app. unfold LF. cbn [String.length]. lia. }
  split; [exact Heq|]. rewrite Heq. lia.
Qed.

(** X11. Every text of a record but its identifier and the street, city,
    state and postal code occurs in the summary: the name, the description,
    the brand, the country, each category, the rating, the date and the
    comment of each review, the two prices and the notes. *)
Theorem createItemSummary_mentions (item : Item number) (w : World) :
  exists summary,
    fst (createItemSummary item w) = Ok summary
    /\ forall p, In p (searchable item) -> includes summary p = true.
Proof.
  summary_text. eexists. split; [reflexivity|].
  intros p. apply InOrder_includes.
  change (searchable item)
    with ([item_name item; item_description item; brand item]
          ++ [country (manufacturer_address item)]
          ++ categories item
          ++ flat_map (fun review =>
                         [numberToString (rating review); review_date review;
                          comment review])
               (user_reviews item)
          ++ [numberToString (full_price (prices item));
              numberToString (sale_price (prices item))]
          ++ [notes item]).
  apply InOrder_app.
  { apply InOrder_here. apply InOrder_prepend. apply InOrder_here.
    apply InOrder_prepend. apply InOrder_single. }
  apply InOrder_prepend. apply InOrder_app.
  { apply InOrder_prepend. apply InOrder_single. }
  do 3 apply InOrder_prepend. apply InOrder_app; [apply InOrder_concat|].
  apply InOrder_prepend. apply InOrder_app.
  { apply InOrder_concat_map. intros review.
    apply InOrder_prepend. apply InOrder_here.
    apply InOrder_prepend. apply InOrder_here.
    apply InOrder_prepend. apply InOrder_single. }
  apply InOrder_prepend. apply InOrder_app.
  { apply InOrder_prepend. apply InOrder_here.
    do 3 apply InOrder_prepend. apply InOrder_here. constructor. }
  apply InOrder_prepend. apply InOrder_single.
Qed.

(** X12. In every summary the full price stands between a dollar sign
    and " USD", and the sale price between "Onsale it costs " and " USD",
    without a dollar sign. *)
Theorem createItemSummary_prices (item : Item number) (w : World) :
  exists summary,
    fst (createItemSummary item w) = Ok summary
    /\ includes summary
         ("$" +:+ numberToString (full_price (prices item)) +:+ " USD")
       = true
    /\ includes summary
         ("Onsale it costs " +:+ numberToString (sale_price (prices item))
          +:+ " USD")
       = true.
Proof.
  summary_text. eexists. split; [reflexivity|]. split.
  - do 10 apply includes_after. apply includes_before.
    apply (includes_cut _ "At full price it costs: " _
             ("," +:+ LF +:+ "     Onsale it costs "
              +:+ numberToString (sale_price (prices item)) +:+ " USD")).
    now rewrite !string_app_assoc.
  - do 10 apply includes_after. apply includes_before.
    apply (includes_cut _
             ("At full price it costs: $"
              +:+ numberToString (full_price (prices item))
              +:+ " USD," +:+ LF +:+ "     ") _ "").
    rewrite !string_app_assoc. now rewrite string_app_nil_r.
Qed.

(** X13. A record without reviews leaves the place of the reviews empty,
    and a record without categories the place of the categories: the
    summary then reads ", Reviews: , Price: " and "Categories: , Reviews: ". *)
Theorem createItemSummary_empty_lists (item : Item number) (w : World) :
  exists summary,
    fst (createItemSummary item w) = Ok summary
    /\ (user_reviews item = [] ->
        includes summary ", Reviews: , Price: " = true)
    /\ (categories item = [] ->
        includes summary "Categories: , Reviews: " = true).
Proof.
  summary_text. eexists. split; [reflexivity|]. split.
  - intros ->. cbn [map String.concat].
    do 7 apply includes_after.
    apply (includes_mid "" ", Reviews: , Price: ").
  - intros ->. cbn [String.concat].
    do 5 apply includes_after.
    apply (includes_mid "    " "Categories: , Reviews: ").
Qed.

End SummaryText.

(** ** Runs and records that meet the hypotheses *)

Lemma seedDatabase_successful_run_witness :
  Forall (fun e => succeeded e = true) (seeding no_fault)
  /\ "items" ∈ collections (seeded no_fault)
  /\ indexes (seeded no_fault) = [vector_index].
Proof.
  assert (Hall : Forall (fun e : Event Z => succeeded e = true)
                   (seeding no_fault)).
  { vm_compute. repeat constructor. }
  split; [exact Hall|].
  destruct (seedDatabase_successful_run
              (SV := two_records no_fault) empty_world Hall)
    as (Hitems & Hindexes & _).
  split; assumption.
Defined.

Lemma seedDatabase_one_model_call_witness :
  seeding no_fault
  = take 7 (seeding no_fault) ++ nth 7 (seeding no_fault) (dropped false)
      :: drop 8 (seeding no_fault)
  /\ is_invoke (nth 7 (seeding no_fault) (dropped false)) = true
  /\ In (cleared true) (take 7 (seeding no_fault))
  /\ Forall (fun e => is_write e = true) (drop 8 (seeding no_fault)).
Proof.
  split; [vm_compute; reflexivity|]. split; [vm_compute; reflexivity|].
  destruct (seedDatabase_one_model_call
              (SV := two_records no_fault) empty_world
              (take 7 (seeding no_fault)) (drop 8 (seeding no_fault))
              (nth 7 (seeding no_fault) (dropped false)))
    as (Hcleared & _ & Hwrites & _);
    [vm_compute; reflexivity|vm_compute; reflexivity|].
  split; assumption.
Defined.

Lemma createItemSummary_ignores_unembedded_witness :
  same_embedded_fields oakChair oakChairRelabelled
  /\ createItemSummary oakChair empty_world
     = createItemSummary oakChairRelabelled empty_world.
Proof.
  assert (Hsame : same_embedded_fields oakChair oakChairRelabelled).
  { now repeat split. }
  split; [exact Hsame|].
  exact (createItemSummary_ignores_unembedded
           oakChair oakChairRelabelled empty_world Hsame).
Defined.

Lemma createItemSummary_mentions_witness :
  In "sturdy" (searchable oakChair)
  /\ exists summary,
       fst (createItemSummary oakChair empty_world) = Ok summary
       /\ includes summary "sturdy" = true.
Proof.
  assert (Hin : In "sturdy" (searchable oakChair)).
  { do 8 right. left. reflexivity. }
  split; [exact Hin|].
  destruct (createItemSummary_mentions oakChair empty_world)
    as (summary & Hsummary & Hall).
  exists summary. split; [exact Hsummary|]. now apply Hall.
Defined.

Lemma createItemSummary_empty_lists_witness :
  user_reviews blankItem = []
  /\ categories blankItem = []
  /\ exists summary,
       fst (createItemSummary blankItem empty_world) = Ok summary
       /\ includes summary ", Reviews: , Price: " = true
       /\ includes summary "Categories: , Reviews: " = true.
Proof.
  do 2 (split; [reflexivity|]).
  destruct (createItemSummary_empty_lists blankItem empty_world)
    as (summary & Hsummary & Hreviews & Hcategories).
  exists summary. split; [exact Hsummary|].
  split; [now apply Hreviews|now apply Hcategories].
Defined.

(** ** The reset and the writes *)

Section ResetOrder.

Context {number vector : Type} {JN : JsNumber number}
  {SV : Services number vector}.

Notation World := (World number vector).
Notation Event := (Event number).

Lemma setup_done_events before after (n : list Event) :
  setup_done before after n ->
  Forall (fun e => is_write e = false) n
  /\ Forall (fun e => is_reset e = false) n.
Proof. intros []; split; now repeat constructor. Qed.

Lemma setup_failed_events before (n : list Event) :
  setup_failed before n -> Forall (fun e => is_write e = false) n.
Proof. intros []; now repeat constructor. Qed.

Lemma index_done_events before after (idx : list Event) :
  index_done before after idx -> Forall (fun e => is_write e = false) idx.
Proof. intros []; now repeat constructor. Qed.

(** C7, as the code has it.  In every run of [seedDatabase], whenever a
    document is written, the calls before the write are these, in this
    order: calls that are no part of the reset, then the calls of
    [createVectorSearchIndex], which has run to its end, then a clearing
    of the collection that succeeded, then calls that are no part of the
    reset; and no call of the reset follows the write.  The calls of
    [createVectorSearchIndex] are the drop of the indexes and, once the
    drop has succeeded, the creation of the vector index; when both
    succeed the index has been recreated before the write and is the only
    index of the collection.  When one of them fails the writes are made
    all the same, and the indexes are then the old ones (failed drop) or
    none (failed creation). *)
Theorem seedDatabase_reset_before_writes (w : World) :
  let w' := snd (seedDatabase w) in
  forall (pre post : list Event) (e : Event),
    events_since w w' = pre ++ e :: post ->
    is_write e = true ->
    exists before idx after,
      pre = before ++ idx ++ cleared true :: after
      /\ Forall (fun e' => is_reset e' = false) before
      /\ index_done (indexes w) (indexes w') idx
      /\ Forall (fun e' => is_reset e' = false) after
      /\ Forall (fun e' => is_reset e' = false) post
      /\ (Forall (fun e' => succeeded e' = true) idx ->
          idx = [dropped true; created true]
          /\ indexes w' = [vector_index]).
Proof.
  intros w' pre post e Hcut He.
  destruct (wp_events_since _ _ _ (seedDatabase_outcome w)) as [_ Hrun].
  fold w' in Hrun. rewrite Hcut in Hrun.
  inversion Hrun as [Hs Hnew|Hs Hnew|n Hn Hs Hnew|n idx Hn Hidx Hd Hnew
                     |n idx prompt Hn Hidx Hd Hnew
                     |n idx prompt done rest Hn Hidx Hmeta Hsum Hd Hnew].
  - exfalso. eapply (no_occurrence is_write); [|exact Hnew|exact He].
    now repeat constructor.
  - exfalso. eapply (no_occurrence is_write); [|exact Hnew|exact He].
    now repeat constructor.
  - exfalso. eapply (no_occurrence is_write); [|exact Hnew|exact He].
    do 2 (constructor; [reflexivity|]).
    eapply setup_failed_events; eassumption.
  - exfalso. eapply (no_occurrence is_write); [|exact Hnew|exact He].
    do 2 (constructor; [reflexivity|]). rewrite !Forall_app.
    split; [eapply setup_done_events; eassumption|].
    split; [eapply index_done_events; eassumption|].
    now repeat constructor.
  - exfalso. eapply (no_occurrence is_write); [|exact Hnew|exact He].
    do 2 (constructor; [reflexivity|]). rewrite !Forall_app.
    split; [eapply setup_done_events; eassumption|].
    split; [eapply index_done_events; eassumption|].
    now repeat constructor.
  - destruct (setup_done_events _ _ _ Hn) as [Hnw Hnr].
    pose proof (index_done_events _ _ _ Hidx) as Hiw.
    assert (Hwrites : Forall (fun e' : Event => is_reset e' = false)
                        (map (wrote true) done ++ stopped_at rest)).
    { apply Forall_app.
      split; [apply wrote_all|apply stopped_at_all]; easy. }
    assert (Hre : connected true :: pinged true
                    :: n ++ idx ++ cleared true :: invoked prompt true
                    :: map (wrote true) done ++ stopped_at rest
                  = ([connected true; pinged true] ++ n ++ idx
                       ++ [cleared true; invoked prompt true])
                      ++ (map (wrote true) done ++ stopped_at rest)).
    { cbn [app]. now rewrite <- !app_assoc. }
    rewrite Hre in Hnew.
    apply (cut_after_prefix is_write) in Hnew as (ws1 & -> & Hws);
      [| |exact He].
    2: { rewrite !Forall_app. split; [now repeat constructor|].
         split; [assumption|]. split; [assumption|].
         now repeat constructor. }
    rewrite Hws in Hwrites. apply Forall_app in Hwrites as [Hws1 Hpost].
    apply Forall_cons in Hpost as [_ Hpost].
    exists ([connected true; pinged true] ++ n), idx,
      (invoked prompt true :: ws1).
    split; [cbn [app]; now rewrite <- !app_assoc|].
    split; [apply Forall_app; split; [now repeat constructor|assumption]|].
    split; [exact Hidx|].
    split; [constructor; [reflexivity|assumption]|].
    split; [exact Hpost|].
    intros Hall. revert Hall. destruct Hidx; intros Hall.
    + apply Forall_cons in Hall as [Hall _]. discriminate Hall.
    + apply Forall_cons in Hall as [_ Hall].
      apply Forall_cons in Hall as [Hall _]. discriminate Hall.
    + now split.
Qed.

End ResetOrder.

(** The claimed order fails when the drop of the indexes fails: the run
    never calls the creation of the index, keeps the index of the earlier
    setup, clears the collection and writes the documents. *)
Lemma seedDatabase_writes_without_index_recreation :
  let w' := snd (seedDatabase (SV := two_records drop_down) stale_world) in
  outline (events_since stale_world w')
  = [("connect", true); ("command", true); ("listCollections", true);
     ("dropIndexes", false); ("deleteMany", true); ("invoke", true);
     ("fromDocuments", true); ("fromDocuments", true)]
  /\ indexes w' = [old_index]
  /\ map record (documents w') = [oakChair; pineDesk].
Proof. vm_compute. now repeat split. Qed.

Lemma seedDatabase_reset_before_writes_witness :
  seeding no_fault
  = take 8 (seeding no_fault) ++ wrote true (document_of oakChair)
      :: drop 9 (seeding no_fault)
  /\ is_write (wrote true (document_of oakChair)) = true
  /\ exists before after,
       take 8 (seeding no_fault)
       = before ++ [dropped true; created true] ++ cleared true :: after
       /\ indexes (seeded no_fault) = [vector_index]
       /\ Forall (fun e => is_reset e = false) (drop 9 (seeding no_fault)).
Proof.
  split; [vm_compute; reflexivity|]. split; [reflexivity|].
  destruct (seedDatabase_reset_before_writes
              (SV := two_records no_fault) empty_world
              (take 8 (seeding no_fault)) (drop 9 (seeding no_fault))
              (wrote true (document_of oakChair)))
    as (before & idx & after & Hpre & _ & _ & _ & Hpost & Hdone);
    [vm_compute; reflexivity|reflexivity|].
  assert (Hall : Forall (fun e : Event Z => succeeded e = true)
                   (take 8 (seeding no_fault))).
  { vm_compute. repeat constructor. }
  rewrite Hpre in Hall. apply Forall_app in Hall as [_ Hall].
  apply Forall_app in Hall as [Hall _].
  destruct (Hdone Hall) as [-> Hindexes].
  exists before, after. split; [exact Hpre|]. split; assumption.
Defined.

(** ** The start of the server *)

(** The four ways a start can go: the connection fails, the ping fails,
    [listen] throws, or nothing fails. *)
Ltac boot_cases :=
  unfold Startup.starteServer, Startup.boot_try_catch, Startup.boot_bind,
    Startup.lift, Startup.app_get, Startup.app_post, Startup.app_route,
    Startup.app_listen, Startup.process_exit, client_connect, admin_ping,
    external, console_log, console_error;
  match goal with
  | |- context [fault (trace ?w) CConnect] =>
      destruct (fault (trace w) CConnect) eqn:?; cbn;
      [|match goal with
        | |- context [fault ?h CPing] =>
            destruct (fault h CPing) eqn:?; cbn;
            [|match goal with
              | |- context [?listen (Startup.PORT ?env)] =>
                  destruct (listen (Startup.PORT env)) eqn:?; cbn
              end]
        end]
  end.

Section StartupFacts.

Context {number vector : Type} {SV : Services number vector}.

Notation World := (World number vector).

(** X14. [starteServer] never raises and never changes the database.
    When the connection or the ping fails it registers no route, does not
    listen and exits with code 1.  When both succeed it registers the
    three routes and calls [listen], with the text of the variable PORT,
    or with 8000 when the variable is not set or is empty; if [listen]
    throws, the error is caught like the others: the routes stay
    registered, the server does not listen, the error is printed as an
    error of the connection and the process exits with code 1. *)
Theorem starteServer_outcomes (env_PORT : option string)
    (listen_throws : Startup.Port -> option Error) (w : World) :
  let out := Startup.starteServer env_PORT listen_throws Startup.fresh w in
  let r := fst (fst out) in
  let p := snd (fst out) in
  let w' := snd out in
  let port := Startup.PORT env_PORT in
  let three :=
    [ {| Startup.method := Startup.GET; Startup.pattern := "/" |};
      {| Startup.method := Startup.POST; Startup.pattern := "/chat" |};
      {| Startup.method := Startup.POST;
         Startup.pattern := "/chat/:threadId" |} ] in
  r = Ok tt
  /\ same_store w w'
  /\ (((events_since w w' = [connected false]
        \/ events_since w w' = [connected true; pinged false])
       /\ p = {| Startup.routes := []; Startup.listening := None;
                 Startup.exited := Some 1 |})
      \/ (events_since w w' = [connected true; pinged true]
          /\ listen_throws port = None
          /\ p = {| Startup.routes := three; Startup.listening := Some port;
                    Startup.exited := None |})
      \/ (events_since w w' = [connected true; pinged true]
          /\ (exists error,
                listen_throws port = Some error
                /\ console w'
                   = console w
                     ++ [Log "Successfully connected to MongoDB Atlas!";
                         LogError "Error connecting to MongoDB" error])
          /\ p = {| Startup.routes := three; Startup.listening := None;
                    Startup.exited := Some 1 |}))
  /\ (env_PORT = None \/ env_PORT = Some "" -> port = Startup.Fixed 8000)
  /\ (forall value, env_PORT = Some value -> value <> "" ->
      port = Startup.FromEnv value).
Proof.
  cbv zeta. split; [|split; [|split; [|split]]].
  - boot_cases; reflexivity.
  - boot_cases; now repeat split.
  - boot_cases.
    + left. split; [|reflexivity]. left. now apply events_since_app.
    + left. split; [|reflexivity]. right. apply events_since_app.
      cbn. now rewrite <- app_assoc.
    + right. right. split; [|split; [|reflexivity]].
      * apply events_since_app. cbn. now rewrite <- app_assoc.
      * eexists. split; [reflexivity|]. cbn. now rewrite <- app_assoc.
    + right. left. split; [|split; reflexivity].
      apply events_since_app. cbn. now rewrite <- app_assoc.
  - unfold Startup.PORT. now intros [->| ->].
  - unfold Startup.PORT. intros value -> Hvalue.
    now destruct (String.eqb_spec value "").
Qed.

End StartupFacts.

Lemma starteServer_outcomes_witness :
  Startup.PORT None = Startup.Fixed 8000
  /\ Startup.PORT (Some "70000") = Startup.FromEnv "70000".
Proof.
  split.
  - destruct (starteServer_outcomes
                (SV := two_records no_fault) None (fun _ => None) empty_world)
      as (_ & _ & _ & Hdefault & _).
    apply Hdefault. now left.
  - destruct (starteServer_outcomes
                (SV := two_records no_fault) (Some "70000") (fun _ => None)
                empty_world)
      as (_ & _ & _ & _ & Hgiven).
    now apply Hgiven.
Defined.
